(** * lib/shopify/index.ts: the commerce adapter over static fixtures

    A shallow embedding of the storefront adapter: the shape normalizers
    ([reshapeCart], [reshapeCollection], [reshapeImages]), the cart
    operations, the collection and product reads with their sorting, and
    the [revalidate] webhook handler.

    Conventions of the embedding.
    - A JavaScript [number] holding a quantity or a pixel size is a [Z].
      Where the code computes with numbers ([updateCart]), the sums and
      products are those of IEEE 754 doubles, rounded to 53 significant
      bits ([round53]); a number that is no integer, [Infinity] and
      [NaN] are not held, and a computation that meets one has the
      result [None].
    - A JavaScript string is a [string]; its characters are the code units
      0..255, compared by code as [<] and [>] compare strings.
    - [undefined]/[null] is [None]; a value used as a condition is tested
      with the [truthy] functions below.
    - An object literal indexed by a string ([Record<string, T>]) is a
      finite map of its own keys on top of the properties every object
      inherits from [Object.prototype] (such as "constructor"): reading
      a name finds the own property first, then the inherited one.
    - [new Date().toISOString()] reads a clock: the fixtures take the
      readings as a parameter [clock], the i-th reading being [clock i].
    - [async] functions are modelled by the value their promise resolves
      to. *)

From Stdlib Require Import ZArith Lia Ascii.
From stdpp Require Import base list strings gmap pretty sorting.

Local Open Scope Z_scope.

(** ** JavaScript values used as conditions *)

(** [!s] is true for an absent string and for the empty one. *)
Definition truthy_string (s : option string) : bool :=
  match s with
  | None => false
  | Some s => negb (String.eqb s "")
  end.

(** [!b] for an optional boolean. *)
Definition truthy_bool (b : option bool) : bool :=
  match b with
  | Some true => true
  | _ => false
  end.

(** ** Data model (./types) *)

Record Money := { amount : string; currencyCode : string }.

Record Image := {
  url : string;
  altText : option string;
  width : Z;
  height : Z
}.

Record SelectedOption := { so_name : string; so_value : string }.

Record CartProduct := {
  cp_id : string;
  cp_handle : string;
  cp_title : string;
  cp_featuredImage : Image
}.

Record Merchandise := {
  m_id : string;
  m_title : string;
  m_selectedOptions : list SelectedOption;
  m_product : CartProduct
}.

Record CartItemCost := { line_totalAmount : Money }.

Record CartItem := {
  line_id : string;
  quantity : Z;
  line_cost : CartItemCost;
  merchandise : Merchandise
}.

Record CartCost := {
  subtotalAmount : Money;
  totalAmount : Money;
  totalTaxAmount : Money
}.

Record Cart := {
  cart_id : string;
  checkoutUrl : string;
  cost : CartCost;
  lines : list CartItem;
  totalQuantity : Z
}.

(** A connection: a list of edges, each wrapping a node.  The edges are
    objects, as [Connection<T>] declares them, so that [edge?.node] is
    [edge.node]. *)
Record Edge (T : Type) := { node : T }.
Arguments node {T} _.
Record Connection (T : Type) := { edges : list (Edge T) }.
Arguments edges {T} _.

(** The upstream cart: [cost] is read with [?.] and its [totalTaxAmount]
    may be missing; [lines] is a connection. *)

Record ShopifyCartCost := {
  s_subtotalAmount : Money;
  s_totalAmount : Money;
  s_totalTaxAmount : option Money
}.

Record ShopifyCart := {
  s_id : string;
  s_checkoutUrl : string;
  s_cost : option ShopifyCartCost;
  s_lines : Connection CartItem;
  s_totalQuantity : Z
}.

Record SEO := { seo_title : string; seo_description : string }.

Record Collection := {
  handle : string;
  title : string;
  description : string;
  seo : SEO;
  updatedAt : string;
  path : string
}.

(** The upstream collection has every field of [Collection] but [path];
    the spread [{...collection, path}] copies them. *)
Record ShopifyCollection := {
  sc_handle : string;
  sc_title : string;
  sc_description : string;
  sc_seo : SEO;
  sc_updatedAt : string
}.

Record ProductOption := {
  po_id : string;
  po_name : string;
  po_values : list string
}.

Record PriceRange := { maxVariantPrice : Money; minVariantPrice : Money }.

Record ProductVariant := {
  pv_id : string;
  pv_title : string;
  pv_availableForSale : bool;
  pv_selectedOptions : list SelectedOption;
  pv_price : Money
}.

Record Product := {
  p_id : string;
  p_handle : string;
  p_title : string;
  p_availableForSale : bool;
  p_description : string;
  p_descriptionHtml : string;
  p_options : list ProductOption;
  p_priceRange : PriceRange;
  p_variants : list ProductVariant;
  p_images : list Image;
  p_featuredImage : Image;
  p_seo : SEO;
  p_tags : list string;
  p_updatedAt : string
}.

(** Thrown values. *)
Inductive exn :=
  | TypeError (msg : string).

Inductive completion (A : Type) :=
  | Normal (a : A)
  | Throw (e : exn).
Arguments Normal {A} a.
Arguments Throw {A} e.

(** ** Shape normalizers *)

Definition removeEdgesAndNodes {T : Type} (array : Connection T) : list T :=
  map node (edges array).

(** [reshapeCart]: a missing [totalTaxAmount] is filled in, then the
    lines are flattened.  With [cost] itself missing the assignment
    [cart.cost.totalTaxAmount = ...] throws. *)
Definition reshapeCart (cart : ShopifyCart) : completion Cart :=
  match s_cost cart with
  | None => Throw (TypeError "Cannot set properties of undefined")
  | Some c =>
      let tax :=
        match s_totalTaxAmount c with
        | None => {| amount := "0.0"; currencyCode := "USD" |}
        | Some t => t
        end in
      Normal {| cart_id := s_id cart;
                checkoutUrl := s_checkoutUrl cart;
                cost := {| subtotalAmount := s_subtotalAmount c;
                           totalAmount := s_totalAmount c;
                           totalTaxAmount := tax |};
                lines := removeEdgesAndNodes (s_lines cart);
                totalQuantity := s_totalQuantity cart |}
  end.

Definition reshapeCollection (collection : option ShopifyCollection)
  : option Collection :=
  match collection with
  | None => None
  | Some c =>
      Some {| handle := sc_handle c;
              title := sc_title c;
              description := sc_description c;
              seo := sc_seo c;
              updatedAt := sc_updatedAt c;
              path := "/search/" +:+ sc_handle c |}
  end.

Fixpoint reshapeCollections (collections : list (option ShopifyCollection))
  : list Collection :=
  match collections with
  | [] => []
  | collection :: rest =>
      match collection with
      | Some _ =>
          match reshapeCollection collection with
          | Some reshapedCollection =>
              reshapedCollection :: reshapeCollections rest
          | None => reshapeCollections rest
          end
      | None => reshapeCollections rest
      end
  end.

(** *** The filename pattern of [reshapeImages]

    The regular expression reads: any run of characters, a slash, a
    captured run (group 1), a dot, any run.  This is a backtracking
    matcher for that one pattern, in continuation-passing style.  The dot
    of a pattern matches every character but a line terminator; a starred
    dot is greedy: it takes the longest run first and gives characters
    back one at a time until the rest of the pattern matches. *)

Definition is_line_terminator (c : ascii) : bool :=
  Ascii.eqb c "010" || Ascii.eqb c "013".

Section Matcher.
Context {R : Type}.

(** [dot_star k consumed s]: the starred dot at the head of [s]; the
    continuation gets the text taken and the text left. *)
Fixpoint dot_star (k : string → string → option R)
    (consumed s : string) : option R :=
  match s with
  | EmptyString => k consumed s
  | String c s' =>
      if is_line_terminator c then k consumed s
      else
        match dot_star k (consumed +:+ String c "") s' with
        | Some r => Some r
        | None => k consumed s
        end
  end.

(** A literal character. *)
Definition lit (c : ascii) (k : string → option R) (s : string)
  : option R :=
  match s with
  | String c' s' => if Ascii.eqb c c' then k s' else None
  | EmptyString => None
  end.

End Matcher.

(** The pattern anchored at the head of [s]; the result is group 1. *)
Definition match_here (s : string) : option string :=
  dot_star
    (λ _, lit "/"
       (dot_star
          (λ group1, lit "."
             (dot_star (λ _ _, Some group1) ""))
          ""))
    "" s.

(** [url.match(re)?.[1]]: the first index at which the pattern matches. *)
Fixpoint match_filename (s : string) : option string :=
  match match_here s with
  | Some group1 => Some group1
  | None =>
      match s with
      | EmptyString => None
      | String _ s' => match_filename s'
      end
  end.

(** [c] occurs in [s]. *)
Fixpoint has_char (c : ascii) (s : string) : bool :=
  match s with
  | EmptyString => false
  | String a s' => Ascii.eqb c a || has_char c s'
  end.

(** [t] is [s] with some characters dropped from its head. *)
Inductive tail_of : string → string → Prop :=
  | tail_here s : tail_of s s
  | tail_later c s t : tail_of t s → tail_of t (String c s).

(** A dot occurs in [s] before any line terminator. *)
Fixpoint dot_on_line (s : string) : bool :=
  match s with
  | EmptyString => false
  | String c s' =>
      if is_line_terminator c then false
      else Ascii.eqb "." c || dot_on_line s'
  end.

(** A slash occurs in [s] that has a dot after it on its line. *)
Fixpoint slash_then_dot (s : string) : bool :=
  match s with
  | EmptyString => false
  | String c s' => (Ascii.eqb "/" c && dot_on_line s') || slash_then_dot s'
  end.

(** [`${x}`] for a possibly undefined string. *)
Definition template (x : option string) : string :=
  match x with
  | Some s => s
  | None => "undefined"
  end.

Definition reshapeImages (images : Connection Image) (productTitle : string)
  : list Image :=
  let flattened := removeEdgesAndNodes images in
  map (λ image,
         let filename := match_filename (url image) in
         {| url := url image;
            altText :=
              if truthy_string (altText image) then altText image
              else Some (productTitle +:+ " - " +:+ template filename);
            width := width image;
            height := height image |})
      flattened.

(** ** Cart operations (static responses) *)

Definition USD (a : string) : Money :=
  {| amount := a; currencyCode := "USD" |}.

Definition image500 (u alt : string) : Image :=
  {| url := u; altText := Some alt; width := 500; height := 500 |}.

Definition createCart : Cart :=
  {| cart_id := "newCartId123";
     checkoutUrl := "https://example.com/checkout";
     cost := {| subtotalAmount := USD "60.00";
                totalAmount := USD "70.00";
                totalTaxAmount := USD "10.00" |};
     lines :=
       [ {| line_id := "line1";
            quantity := 5;
            line_cost := {| line_totalAmount := USD "60.00" |};
            merchandise :=
              {| m_id := "002";
                 m_title := "Acme Vintage Hoodie";
                 m_selectedOptions :=
                   [ {| so_name := "Size"; so_value := "Large" |} ];
                 m_product :=
                   {| cp_id := "002";
                      cp_handle := "vintage-hoodie";
                      cp_title := "Acme Vintage Hoodie";
                      cp_featuredImage :=
                        image500 "/local_data_store/hoodie-1.avif"
                                 "A vintage hoodie" |} |} |} ];
     totalQuantity := 1 |}.

(** The requested lines of [addToCart]. *)
Record AddLine := { add_merchandiseId : string; add_quantity : Z }.

Definition tshirt_line (q : Z) (total : string) : CartItem :=
  {| line_id := "line1";
     quantity := q;
     line_cost := {| line_totalAmount := USD total |};
     merchandise :=
       {| m_id := "001";
          m_title := "Acme Classic T-Shirt";
          m_selectedOptions :=
            [ {| so_name := "Size"; so_value := "Medium" |} ];
          m_product :=
            {| cp_id := "001";
               cp_handle := "classic-t-shirt";
               cp_title := "Acme Classic T-Shirt";
               cp_featuredImage :=
                 image500 "/local_data_store/t-shirt-1.avif"
                          "A cool t-shirt" |} |} |}.

Definition addToCart (cartId : string) (lines : list AddLine) : Cart :=
  {| cart_id := cartId;
     checkoutUrl := "https://example.com/checkout";
     cost := {| subtotalAmount := USD "120.00";
                totalAmount := USD "130.00";
                totalTaxAmount := USD "10.00" |};
     lines :=
       [ tshirt_line 2 "60.00";
         {| line_id := "line2";
            quantity := 1;
            line_cost := {| line_totalAmount := USD "60.00" |};
            merchandise :=
              {| m_id := "002";
                 m_title := "Acme Vintage Hoodie";
                 m_selectedOptions :=
                   [ {| so_name := "Size"; so_value := "Large" |} ];
                 m_product :=
                   {| cp_id := "002";
                      cp_handle := "vintage-hoodie";
                      cp_title := "Acme Vintage Hoodie";
                      cp_featuredImage :=
                        image500 "/local_data_store/t-shirt-1.avif"
                                 "A vintage hoodie" |} |} |} ];
     totalQuantity := 3 |}.

Definition removeFromCart (cartId : string) (lineIds : list string) : Cart :=
  {| cart_id := cartId;
     checkoutUrl := "https://example.com/checkout";
     cost := {| subtotalAmount := USD "80.00";
                totalAmount := USD "88.00";
                totalTaxAmount := USD "8.00" |};
     lines := [ tshirt_line 1 "40.00" ];
     totalQuantity := 1 |}.

(** The requested lines of [updateCart]. *)
Record UpdateLine := {
  upd_id : string;
  upd_merchandiseId : string;
  upd_quantity : Z
}.

(** *** Arithmetic on numbers

    A [number] is an IEEE 754 double.  The integers among the finite
    doubles are held as [Z]: they are the integers with at most 53
    significant bits, below 2^1024 in magnitude. *)

(** The integer with at most 53 significant bits nearest to [x]; of two
    that are equally near, the one whose 53-bit significand is even. *)
Definition round53 (x : Z) : Z :=
  let m := Z.abs x in
  let e := Z.log2 m - 52 in
  if e <=? 0 then x
  else
    let q := Z.shiftr m e in
    let r := Z.land m (Z.ones e) in
    let half := Z.shiftl 1 (e - 1) in
    let q' := if (half <? r) || ((r =? half) && Z.odd q) then q + 1 else q in
    Z.sgn x * Z.shiftl q' e.

(** The double that an operation with the exact integer result [x]
    returns: [x] rounded, or [Infinity] from 2^1024 on, which is no
    integer. *)
Definition to_double (x : Z) : option Z :=
  let r := round53 x in
  if Z.abs r <? 2 ^ 1024 then Some r else None.

(** [x] is a double. *)
Definition is_double (x : Z) : bool := bool_decide (to_double x = Some x).

(** [a + b] and [a * b] on doubles that are integers. *)
Definition number_add (a b : Z) : option Z := to_double (a + b).
Definition number_mul (a b : Z) : option Z := to_double (a * b).

(** [x.toFixed(2)] for a double [x] that is an integer: its decimal
    digits, then two zero decimals.  From 1e21 on the result is in
    exponent notation, which is not modelled. *)
Definition toFixed2 (x : Z) : option string :=
  if Z.abs x <? 10 ^ 21 then Some (pretty x +:+ ".00") else None.

(** One line of the cart of [updateCart]; [None] when the requested
    quantity is no double that is an integer, or when the amount leaves
    the numbers that are modelled. *)
Definition updateCart_line (line : UpdateLine) : option CartItem :=
  if is_double (upd_quantity line) then
    total ← number_mul 40 (upd_quantity line);
    amount ← toFixed2 total;
    Some
      {| line_id := upd_id line;
         quantity := upd_quantity line;
         line_cost := {| line_totalAmount := USD amount |};
         merchandise :=
           {| m_id := upd_merchandiseId line;
              m_title := "Acme Product";
              m_selectedOptions :=
                [ {| so_name := "Size"; so_value := "Default" |} ];
              m_product :=
                {| cp_id := upd_merchandiseId line;
                   cp_handle := "product-handle";
                   cp_title := "Acme Product";
                   cp_featuredImage :=
                     image500 "/local_data_store/t-shirt-1.avif"
                              "Product Image" |} |} |}
  else None.

(** [lines.reduce((total, line) => total + line.quantity, 0)]: each
    addition is rounded.  A total that has become [Infinity] or [NaN]
    stays one of the two. *)
Definition reduce_quantities (lines : list UpdateLine) : option Z :=
  fold_left (λ total line, t ← total; number_add t (upd_quantity line))
            lines (Some 0).

(** [updateCart]; [None] when a number of the cart is not among those
    that are modelled. *)
Definition updateCart (cartId : string) (lines : list UpdateLine)
  : option Cart :=
  items ← mapM updateCart_line lines;
  total ← reduce_quantities lines;
  Some
    {| cart_id := cartId;
       checkoutUrl := "https://example.com/checkout";
       cost := {| subtotalAmount := USD "160.00";
                  totalAmount := USD "172.00";
                  totalTaxAmount := USD "12.00" |};
       lines := items;
       totalQuantity := total |}.

Definition getCart (cartId : option string) : option Cart :=
  match cartId with
  | Some id =>
      if truthy_string cartId then
        Some {| cart_id := id;
                checkoutUrl := "https://example.com/checkout";
                cost := {| subtotalAmount := USD "120.00";
                           totalAmount := USD "130.00";
                           totalTaxAmount := USD "10.00" |};
                lines := [ tshirt_line 2 "60.00" ];
                totalQuantity := 2 |}
      else None
  | None => None
  end.

(** The write followed by the read of the same cart id: the two calls
    share no state, the cart written is dropped. *)
Definition addToCart_then_getCart (cartId : string) (lines : list AddLine)
  : option Cart :=
  let _written := addToCart cartId lines in
  getCart (Some cartId).

(** The sum of the quantities of a cart's lines. *)
Definition sum_quantities (ls : list CartItem) : Z :=
  foldr (λ line acc, quantity line + acc) 0 ls.

Definition has_line (c : Cart) (m : string) (q : Z) : Prop :=
  ∃ line, line ∈ lines c ∧ m_id (merchandise line) = m ∧ quantity line = q.

(** ** Reading a property of an object literal *)

(** The names of the properties of [Object.prototype], which every
    object literal inherits.  All of them hold a function, but
    "__proto__", which reads as the prototype itself; none of these
    values is [undefined] or otherwise falsy. *)
Definition object_prototype_names : list string :=
  [ "constructor"; "__defineGetter__"; "__defineSetter__";
    "hasOwnProperty"; "__lookupGetter__"; "__lookupSetter__";
    "isPrototypeOf"; "propertyIsEnumerable"; "toString"; "valueOf";
    "__proto__"; "toLocaleString" ].

(** What [object[key]] finds: a property of the literal itself, or the
    value inherited under that name. *)
Inductive property (T : Type) :=
  | Own (value : T)
  | Inherited (name : string).
Arguments Own {T} value.
Arguments Inherited {T} name.

(** [object[key]] for an object literal with the own properties [own];
    [None] is [undefined]. *)
Definition get_property {T : Type} (own : gmap string T) (key : string)
  : option (property T) :=
  match own !! key with
  | Some value => Some (Own value)
  | None =>
      if bool_decide (key ∈ object_prototype_names)
      then Some (Inherited key)
      else None
  end.

(** ** Collections *)

Definition getCollection (clock : nat → string) (handle : string)
  : option (property Collection) :=
  let collections : gmap string Collection :=
    {[ "All" :=
         {| handle := "spring-2020";
            title := "Spring 2020 Collection";
            description :=
              "Explore our exciting new collection for Spring 2020!";
            seo :=
              {| seo_title := "Spring 2020 Collection";
                 seo_description :=
                   "Browse our Spring 2020 collection featuring vibrant colors and fresh designs." |};
            updatedAt := clock 0%nat;
            path := "/collections/spring-2020" |} ]} in
  get_property collections handle.

(** [s.startsWith(p)] *)
Definition startsWith (s p : string) : bool := String.prefix p s.

Definition getCollections (clock : nat → string) : list Collection :=
  let staticCollections :=
    [ {| handle := "";
         title := "All";
         description := "All products";
         seo := {| seo_title := "All"; seo_description := "All products" |};
         updatedAt := clock 0%nat;
         path := "/search" |} ] in
  List.filter (λ collection, negb (startsWith (handle collection) "hidden"))
              staticCollections.

(** ** Sorting products *)

(** The fields of [Product]. *)
Inductive ProductKey :=
  | K_id | K_handle | K_title | K_availableForSale | K_description
  | K_descriptionHtml | K_options | K_priceRange | K_variants | K_images
  | K_featuredImage | K_seo | K_tags | K_updatedAt.

Definition key_name (k : ProductKey) : string :=
  match k with
  | K_id => "id" | K_handle => "handle" | K_title => "title"
  | K_availableForSale => "availableForSale"
  | K_description => "description"
  | K_descriptionHtml => "descriptionHtml"
  | K_options => "options" | K_priceRange => "priceRange"
  | K_variants => "variants" | K_images => "images"
  | K_featuredImage => "featuredImage" | K_seo => "seo"
  | K_tags => "tags" | K_updatedAt => "updatedAt"
  end.

Definition all_keys : list ProductKey :=
  [ K_id; K_handle; K_title; K_availableForSale; K_description;
    K_descriptionHtml; K_options; K_priceRange; K_variants; K_images;
    K_featuredImage; K_seo; K_tags; K_updatedAt ].

(** The field a property name selects, if it names one. *)
Definition field_of (name : string) : option ProductKey :=
  List.find (λ k, String.eqb (key_name k) name) all_keys.

Definition isValidProductKey (key : string) : bool :=
  bool_decide
    (key ∈ [ "id"; "handle"; "title"; "availableForSale"; "description";
             "descriptionHtml"; "options"; "priceRange"; "variants";
             "images"; "featuredImage"; "seo"; "tags"; "updatedAt" ]).

Definition isKeyOfProduct (key : string) : bool :=
  bool_decide
    (key ∈ [ "id"; "handle"; "title"; "description"; "availableForSale";
             "descriptionHtml"; "options"; "priceRange"; "variants";
             "images"; "seo"; "tags"; "updatedAt" ]).

(** What [<] and [>] compare when both operands are the same field of two
    products.  Strings are compared as strings and a boolean as the number
    0 or 1.  An object is first turned into the string "[object Object]",
    and an array into the strings of its elements joined by commas. *)
Inductive Comparable :=
  | ByString (f : Product → string)
  | ByNumber (f : Product → Z).

Definition object_toString : string := "[object Object]".

Definition array_toString (elements : list string) : string :=
  String.concat "," elements.

Definition comparable (k : ProductKey) : Comparable :=
  match k with
  | K_id => ByString p_id
  | K_handle => ByString p_handle
  | K_title => ByString p_title
  | K_availableForSale =>
      ByNumber (λ p, if p_availableForSale p then 1 else 0)
  | K_description => ByString p_description
  | K_descriptionHtml => ByString p_descriptionHtml
  | K_options =>
      ByString (λ p, array_toString (map (λ _, object_toString) (p_options p)))
  | K_priceRange => ByString (λ _, object_toString)
  | K_variants =>
      ByString (λ p, array_toString (map (λ _, object_toString) (p_variants p)))
  | K_images =>
      ByString (λ p, array_toString (map (λ _, object_toString) (p_images p)))
  | K_featuredImage => ByString (λ _, object_toString)
  | K_seo => ByString (λ _, object_toString)
  | K_tags => ByString (λ p, array_toString (p_tags p))
  | K_updatedAt => ByString p_updatedAt
  end.

(** [a[k] < b[k]] *)
Definition field_lt (k : ProductKey) (a b : Product) : bool :=
  match comparable k with
  | ByString f => String.ltb (f a) (f b)
  | ByNumber f => f a <? f b
  end.

(** [a[k] > b[k]] *)
Definition field_gt (k : ProductKey) (a b : Product) : bool :=
  field_lt k b a.

(** The two products hold equal values at [k]. *)
Definition same_value (k : ProductKey) (a b : Product) : Prop :=
  match comparable k with
  | ByString f => f a = f b
  | ByNumber f => f a = f b
  end.

#[global] Instance same_value_dec (k : ProductKey) (a b : Product) :
  Decision (same_value k a b).
Proof. unfold same_value. destruct (comparable k); apply _. Defined.

(** [a] is not above [b] at [k]. *)
Definition field_le (k : ProductKey) (a b : Product) : Prop :=
  field_lt k b a = false.

(** [a[sortKey] < b[sortKey]] for a property name; a name that selects no
    field reads [undefined] on both sides, and the comparison is false. *)
Definition prop_lt (sortKey : string) (a b : Product) : bool :=
  match field_of sortKey with
  | Some k => field_lt k a b
  | None => false
  end.

Definition prop_gt (sortKey : string) (a b : Product) : bool :=
  prop_lt sortKey b a.

(** [Array.prototype.sort(comparefn)]: the stable sort.  An element moves
    behind the ones that came after it only while [comparefn] puts it
    strictly after them (a positive result); on 0 the earlier element
    stays first.  The comparators of this module compare by a total order
    of the values of a field; for such a comparator the language fixes
    the outcome of [sort], the one rearrangement that is in comparator
    order and keeps tied elements in their order, and this function
    computes it ([array_sort_perm], [array_sort_Sorted],
    [array_sort_filter]). *)
Section ArraySort.
Context {A : Type} (comparefn : A → A → Z).

Fixpoint sort_insert (x : A) (sorted : list A) : list A :=
  match sorted with
  | [] => [x]
  | y :: rest =>
      if comparefn x y >? 0 then y :: sort_insert x rest
      else x :: y :: rest
  end.

Definition array_sort (l : list A) : list A := foldr sort_insert [] l.

End ArraySort.

(** ** Product listings *)

Definition size_option (id : string) : ProductOption :=
  {| po_id := id; po_name := "Size";
     po_values := [ "Small"; "Medium"; "Large" ] |}.

(** An element of the fixture of [getCollectionProducts]; the four differ
    in handle, title, description, image and the clock reading. *)
Definition collection_product (handle title description descriptionHtml
    imageUrl updatedAt : string) : Product :=
  {| p_id := "001";
     p_handle := handle;
     p_title := title;
     p_availableForSale := true;
     p_description := description;
     p_descriptionHtml := descriptionHtml;
     p_options := [ size_option "option1" ];
     p_priceRange := {| maxVariantPrice := USD "19.99";
                        minVariantPrice := USD "19.99" |};
     p_variants :=
       [ {| pv_id := "00101";
            pv_title := "Small";
            pv_availableForSale := true;
            pv_selectedOptions :=
              [ {| so_name := "Size"; so_value := "Small" |} ];
            pv_price := USD "19.99" |} ];
     p_images := [ image500 imageUrl "A cool t-shirt" ];
     p_featuredImage := image500 imageUrl "A cool t-shirt";
     p_seo :=
       {| seo_title := "Buy Classic T-Shirt";
          seo_description :=
            "Comfortable and stylish classic cotton t-shirts" |};
     p_tags := [ "fashion"; "cotton"; "t-shirt" ];
     p_updatedAt := updatedAt |}.

Definition collection_fixture (clock : nat → string) : list Product :=
  [ collection_product "classic-t-shirt" "Acme Classic T-Shirt"
      "A classic cotton t-shirt" "<p>A classic cotton t-shirt</p>"
      "/local_data_store/t-shirt-1.avif" (clock 0%nat);
    collection_product "acme-cup" "Acme Cup"
      "A cup" "<p>A cup</p>"
      "/local_data_store/image copy.png" (clock 1%nat);
    collection_product "acme-drawstring-bag" "Acme Drawstring Bag"
      "A classic cotton t-shirt" "<p>A classic cotton t-shirt</p>"
      "/local_data_store/image.png" (clock 2%nat);
    collection_product "acme-drawstring-bag" "Acme Drawstring Bag"
      "A classic cotton t-shirt" "<p>A classic cotton t-shirt</p>"
      "/local_data_store/image.png" (clock 3%nat) ].

(** [if (reverse) staticProducts.reverse()]: the array as it stands when
    the sort of [getCollectionProducts] is reached. *)
Definition reversed_if (reverse : option bool) (staticProducts : list Product)
  : list Product :=
  if truthy_bool reverse then List.rev staticProducts else staticProducts.

(** The comparator of [getCollectionProducts]. *)
Definition collection_comparefn (sortKey : string) (a b : Product) : Z :=
  if prop_gt sortKey a b then 1
  else if prop_lt sortKey a b then -1
  else 0.

(** The body of [getCollectionProducts] over the array [staticProducts]. *)
Definition getCollectionProducts_from (staticProducts : list Product)
    (collection : string) (reverse : option bool) (sortKey : option string)
  : list Product :=
  let staticProducts := reversed_if reverse staticProducts in
  match sortKey with
  | Some key =>
      if truthy_string sortKey && isValidProductKey key
      then array_sort (collection_comparefn key) staticProducts
      else staticProducts
  | None => staticProducts
  end.

Definition getCollectionProducts (clock : nat → string)
    (collection : string) (reverse : option bool) (sortKey : option string)
  : list Product :=
  getCollectionProducts_from (collection_fixture clock)
                             collection reverse sortKey.

Definition products_fixture (clock : nat → string) : list Product :=
  [ {| p_id := "001";
       p_handle := "classic-t-shirt";
       p_title := "Classic T-Shirt";
       p_availableForSale := true;
       p_description := "A perfect t-shirt for everyday wear.";
       p_descriptionHtml := "<p>A perfect t-shirt for everyday wear.</p>";
       p_options := [ size_option "opt1" ];
       p_priceRange := {| maxVariantPrice := USD "19.99";
                          minVariantPrice := USD "19.99" |};
       p_variants :=
         [ {| pv_id := "001-small";
              pv_title := "Small Size";
              pv_availableForSale := true;
              pv_selectedOptions :=
                [ {| so_name := "Size"; so_value := "Small" |} ];
              pv_price := USD "19.99" |} ];
       p_images :=
         [ image500 "/local_data_store/t-shirt-1.avif" "Classic T-Shirt" ];
       p_featuredImage :=
         image500 "/local_data_store/t-shirt-1.avif"
                  "Feature image of Classic T-Shirt";
       p_seo :=
         {| seo_title := "Buy Classic T-Shirt";
            seo_description :=
              "Comfortable and stylish classic cotton t-shirts" |};
       p_tags := [ "fashion"; "cotton"; "t-shirt" ];
       p_updatedAt := clock 0%nat |} ].

(** [s.toLowerCase()] on the code units 0..255. *)
Definition lower_char (c : ascii) : ascii :=
  let n := N_of_ascii c in
  if ((65 <=? n) && (n <=? 90))%N
     || ((192 <=? n) && (n <=? 222) && negb (n =? 215))%N
  then ascii_of_N (n + 32)
  else c.

Fixpoint toLowerCase (s : string) : string :=
  match s with
  | EmptyString => EmptyString
  | String c s' => String (lower_char c) (toLowerCase s')
  end.

(** [s.includes(sub)] *)
Fixpoint includes (s sub : string) : bool :=
  String.prefix sub s
  || match s with
     | EmptyString => false
     | String _ s' => includes s' sub
     end.

(** The query filter of [getProducts]. *)
Definition filter_by_query (query : option string)
    (staticProducts : list Product) : list Product :=
  match query with
  | Some q =>
      if truthy_string query then
        List.filter
          (λ product,
             includes (toLowerCase (p_title product)) (toLowerCase q)
             || includes (toLowerCase (p_description product))
                         (toLowerCase q))
          staticProducts
      else staticProducts
  | None => staticProducts
  end.

(** The comparator of [getProducts]. *)
Definition products_comparefn (sortKey : string) (reverse : option bool)
    (a b : Product) : Z :=
  if prop_lt sortKey a b then (if truthy_bool reverse then 1 else -1)
  else if prop_gt sortKey a b then (if truthy_bool reverse then -1 else 1)
  else 0.

(** The body of [getProducts] over the array [staticProducts]. *)
Definition getProducts_from (staticProducts : list Product)
    (query : option string) (reverse : option bool)
    (sortKey : option string) : list Product :=
  let filteredProducts := filter_by_query query staticProducts in
  match sortKey with
  | Some key =>
      if truthy_string sortKey && isKeyOfProduct key
      then array_sort (products_comparefn key reverse) filteredProducts
      else filteredProducts
  | None => filteredProducts
  end.

Definition getProducts (clock : nat → string)
    (query : option string) (reverse : option bool)
    (sortKey : option string) : list Product :=
  getProducts_from (products_fixture clock) query reverse sortKey.

(** ** The revalidation webhook *)

(** What the handler acts on: the cache tags it has asked to invalidate,
    oldest first, and the lines written by [console.error]. *)
Record World := {
  invalidated : list string;
  console : list string
}.

Definition M (A : Type) : Type := World → A * World.

#[local] Instance M_ret : MRet M := λ A a w, (a, w).
#[local] Instance M_bind : MBind M :=
  λ A B f m w, let '(a, w') := m w in f a w'.

Definition revalidateTag (tag : string) : M unit :=
  λ w, (tt, {| invalidated := invalidated w ++ [tag];
               console := console w |}).

Definition console_error (msg : string) : M unit :=
  λ w, (tt, {| invalidated := invalidated w;
               console := console w ++ [msg] |}).

(** Modelled from the spec: [TAGS.collections] of lib/constants, a module
    that is not among the sources; the spec gives the cache tags as the
    fixed vocabulary [products], [collections]. *)
Definition TAGS_collections : string := "collections".

(** Modelled from the spec: [TAGS.products] of lib/constants, a module
    that is not among the sources; the spec gives the cache tags as the
    fixed vocabulary [products], [collections]. *)
Definition TAGS_products : string := "products".

(** The request as the handler reads it: the [x-shopify-topic] header
    and the [secret] query parameter. *)
Record NextRequest := {
  x_shopify_topic : option string;
  secret_param : option string
}.

(** The JSON body of the response. *)
Record Body := {
  status : Z;
  revalidated : option bool;
  now : option Z
}.

Record NextResponse := { http_status : Z; body : Body }.

(** [NextResponse.json(body)]: no init is given, the HTTP status is 200. *)
Definition NextResponse_json (b : Body) : NextResponse :=
  {| http_status := 200; body := b |}.

Definition acknowledged : Body :=
  {| status := 200; revalidated := None; now := None |}.

(** [revalidate]; [env_secret] is [process.env.SHOPIFY_REVALIDATION_SECRET]
    and [date_now] the reading of [Date.now()].  The strict inequality of
    the secrets is only evaluated on a non-empty request secret, where it
    is the inequality of the two optional strings. *)
Definition revalidate (env_secret : option string) (date_now : Z)
    (req : NextRequest) : M NextResponse :=
  let collectionWebhooks :=
    [ "collections/create"; "collections/delete"; "collections/update" ] in
  let productWebhooks :=
    [ "products/create"; "products/delete"; "products/update" ] in
  let topic :=
    if truthy_string (x_shopify_topic req)
    then default "unknown" (x_shopify_topic req)
    else "unknown" in
  let secret := secret_param req in
  let isCollectionUpdate := bool_decide (topic ∈ collectionWebhooks) in
  let isProductUpdate := bool_decide (topic ∈ productWebhooks) in
  if negb (truthy_string secret) || negb (bool_decide (secret = env_secret))
  then
    _ ← console_error "Invalid revalidation secret.";
    mret (NextResponse_json acknowledged)
  else if negb isCollectionUpdate && negb isProductUpdate
  then mret (NextResponse_json acknowledged)
  else
    _ ← (if isCollectionUpdate then revalidateTag TAGS_collections
         else mret tt);
    _ ← (if isProductUpdate then revalidateTag TAGS_products
         else mret tt);
    mret (NextResponse_json
            {| status := 200; revalidated := Some true;
               now := Some date_now |}).

Definition initial_world : World := {| invalidated := []; console := [] |}.

(** ** Menus *)

Record Menu := { menu_title : string; menu_path : string }.

(** [s] without its head [pat], when [s] starts with [pat]. *)
Fixpoint strip_prefix (pat s : string) : option string :=
  match pat, s with
  | EmptyString, _ => Some s
  | String a pat', String b s' =>
      if Ascii.eqb a b then strip_prefix pat' s' else None
  | String _ _, EmptyString => None
  end.

(** [s.replace(pat, rep)] for a string [pat]: the first occurrence of
    [pat] is replaced, and [s] is returned as it is when there is none.
    (The replacements of this module hold no dollar sign, which alone is
    special in a replacement.) *)
Fixpoint replace_first (s pat rep : string) : string :=
  match strip_prefix pat s with
  | Some rest => rep +:+ rest
  | None =>
      match s with
      | EmptyString => EmptyString
      | String c s' => String c (replace_first s' pat rep)
      end
  end.

(** The rewriting of a menu path: the store domain is taken out, then
    "/collections" becomes "/search", then "/pages" is taken out. *)
Definition rewrite_menu_path (domain path : string) : string :=
  replace_first
    (replace_first (replace_first path domain "") "/collections" "/search")
    "/pages" "".

(** [getMenu].  The module constant [domain] is computed from the
    environment with a helper of lib/utils that is not among the
    sources; it is a parameter here.  Under an inherited name
    [menus[handle]] is a function, or the prototype object, and has no
    property [map]: the optional chain goes on, since the value is not
    [undefined], and calling [undefined] throws a [TypeError] (the text
    of the message is the one Node prints). *)
Definition getMenu (domain : string) (handle : string)
  : completion (list Menu) :=
  let menus : gmap string (list Menu) :=
    {[ "next-js-frontend-footer-menu" :=
         [ {| menu_title := "Home"; menu_path := "/" |};
           {| menu_title := "About Us"; menu_path := "/about" |};
           {| menu_title := "Contact"; menu_path := "/contact" |} ];
       "next-js-frontend-header-menu" :=
         [ {| menu_title := "All"; menu_path := "/search" |} ] ]} in
  match get_property menus handle with
  | Some (Own items) =>
      Normal
        (map (λ item,
                {| menu_title := menu_title item;
                   menu_path := rewrite_menu_path domain (menu_path item) |})
             items)
  | Some (Inherited _) =>
      Throw (TypeError "menus[handle]?.map is not a function")
  | None => Normal []
  end.

(** ** Pages *)

Record Page := {
  pg_id : string;
  pg_title : string;
  pg_handle : string;
  pg_body : string;
  pg_bodySummary : string;
  pg_seo : SEO;
  pg_createdAt : string;
  pg_updatedAt : string
}.

(** The outcome of a function that may [throw new Error(message)]. *)
Inductive outcome (A : Type) :=
  | Returned (a : A)
  | Thrown (message : string).
Arguments Returned {A} a.
Arguments Thrown {A} message.

(** [getPage].  What it returns is whatever [staticPages[handle]] holds,
    if that is truthy: a page of the literal, or the value inherited
    under the name. *)
Definition getPage (clock : nat → string) (handle : string)
  : outcome (property Page) :=
  let staticPages : gmap string Page :=
    {[ "about" :=
         {| pg_id := "1";
            pg_title := "About Us";
            pg_handle := "about";
            pg_body :=
              "This is the shop for ecoedu society. <br><br>Welcome to the EcoEdu Society, a non-profit organization dedicated to harnessing artificial intelligence and digital innovation to promote sustainable development and ecological awareness. Our mission is to empower communities and businesses through social media advocacy, educational consulting in AI, and transformative digital services, all aimed at fostering a greener, more sustainable future. Join us in driving positive change for our";
            pg_bodySummary := "Short summary of the About Us page.";
            pg_seo :=
              {| seo_title := "About Us - Our Company";
                 seo_description :=
                   "Learn more about our company's history and mission." |};
            pg_createdAt := clock 0%nat;
            pg_updatedAt := clock 1%nat |};
       "contact" :=
         {| pg_id := "2";
            pg_title := "Contact";
            pg_handle := "contact";
            pg_body := "This is the body text of the Contact page.";
            pg_bodySummary := "Short summary of the Contact page.";
            pg_seo :=
              {| seo_title := "Contact Us";
                 seo_description := "How to contact us." |};
            pg_createdAt := clock 2%nat;
            pg_updatedAt := clock 3%nat |} ]} in
  match get_property staticPages handle with
  | Some page => Returned page
  | None => Thrown ("Page with handle '" +:+ handle +:+ "' not found.")
  end.

Definition getPages (clock : nat → string) : list Page :=
  [ {| pg_id := "1";
       pg_title := "About Us";
       pg_handle := "about-us";
       pg_body :=
         "This is the body text of the About Us page, providing detailed information about our company.";
       pg_bodySummary := "Learn about our company, our goals, and our team.";
       pg_seo :=
         {| seo_title := "About Us - Our Company";
            seo_description :=
              "Discover more about our company's history, culture, and values." |};
       pg_createdAt := clock 0%nat;
       pg_updatedAt := clock 1%nat |};
    {| pg_id := "2";
       pg_title := "Contact Us";
       pg_handle := "contact";
       pg_body :=
         "This page contains contact information including email addresses, phone numbers, and our office location.";
       pg_bodySummary :=
         "Reach out to us via email, phone, or visit our office for any inquiries.";
       pg_seo :=
         {| seo_title := "Contact Us";
            seo_description := "Find all the ways you can contact our team." |};
       pg_createdAt := clock 2%nat;
       pg_updatedAt := clock 3%nat |};
    {| pg_id := "3";
       pg_title := "Services";
       pg_handle := "services";
       pg_body :=
         "Detailed description of the services we offer, including custom solutions and support.";
       pg_bodySummary :=
         "Overview of our services ranging from product support to custom development.";
       pg_seo :=
         {| seo_title := "Our Services";
            seo_description :=
              "Explore the wide range of services we provide to our clients." |};
       pg_createdAt := clock 4%nat;
       pg_updatedAt := clock 5%nat |} ].

(** ** Products *)

(** The upstream product: the fields of [Product], with the images and
    the variants as connections. *)
Record ShopifyProduct := {
  sp_id : string;
  sp_handle : string;
  sp_title : string;
  sp_availableForSale : bool;
  sp_description : string;
  sp_descriptionHtml : string;
  sp_options : list ProductOption;
  sp_priceRange : PriceRange;
  sp_variants : Connection ProductVariant;
  sp_images : Connection Image;
  sp_featuredImage : Image;
  sp_seo : SEO;
  sp_tags : list string;
  sp_updatedAt : string
}.

Section HiddenTag.
(** The constant [HIDDEN_PRODUCT_TAG] of lib/constants, a module that is
    not among the sources: a parameter. *)
Variable HIDDEN_PRODUCT_TAG : string.

(** [reshapeProduct]; an omitted [filterHiddenProducts] is [true]. *)
Definition reshapeProduct (product : option ShopifyProduct)
    (filterHiddenProducts : option bool) : option Product :=
  match product with
  | None => None
  | Some product =>
      if default true filterHiddenProducts
         && bool_decide (HIDDEN_PRODUCT_TAG ∈ sp_tags product)
      then None
      else
        Some {| p_id := sp_id product;
                p_handle := sp_handle product;
                p_title := sp_title product;
                p_availableForSale := sp_availableForSale product;
                p_description := sp_description product;
                p_descriptionHtml := sp_descriptionHtml product;
                p_options := sp_options product;
                p_priceRange := sp_priceRange product;
                p_variants := removeEdgesAndNodes (sp_variants product);
                p_images :=
                  reshapeImages (sp_images product) (sp_title product);
                p_featuredImage := sp_featuredImage product;
                p_seo := sp_seo product;
                p_tags := sp_tags product;
                p_updatedAt := sp_updatedAt product |}
  end.

Fixpoint reshapeProducts (products : list (option ShopifyProduct))
  : list Product :=
  match products with
  | [] => []
  | product :: rest =>
      match product with
      | Some _ =>
          match reshapeProduct product None with
          | Some reshapedProduct => reshapedProduct :: reshapeProducts rest
          | None => reshapeProducts rest
          end
      | None => reshapeProducts rest
      end
  end.

End HiddenTag.

(** An element of the fixture of [getProduct]. *)
Definition handle_product (id handle title description descriptionHtml
    maxPrice minPrice variantId variantPrice imageUrl seoTitle seoDescription
    : string) (tags : list string) (updatedAt : string) : Product :=
  {| p_id := id;
     p_handle := handle;
     p_title := title;
     p_availableForSale := true;
     p_description := description;
     p_descriptionHtml := descriptionHtml;
     p_options := [ size_option "opt1" ];
     p_priceRange := {| maxVariantPrice := USD maxPrice;
                        minVariantPrice := USD minPrice |};
     p_variants :=
       [ {| pv_id := variantId;
            pv_title := "Small Size";
            pv_availableForSale := true;
            pv_selectedOptions :=
              [ {| so_name := "Size"; so_value := "Small" |} ];
            pv_price := USD variantPrice |} ];
     p_images := [ image500 imageUrl title ];
     p_featuredImage := image500 imageUrl title;
     p_seo := {| seo_title := seoTitle; seo_description := seoDescription |};
     p_tags := tags;
     p_updatedAt := updatedAt |}.

Definition getProduct (clock : nat → string) (handle : string)
  : option (property Product) :=
  let staticProducts : gmap string Product :=
    {[ "classic-t-shirt" :=
         handle_product "001" "classic-t-shirt" "Classic T-Shirt"
           "A perfect t-shirt for everyday wear."
           "<p>A perfect t-shirt for everyday wear.</p>"
           "19.99" "19.99" "001-small" "19.99"
           "/local_data_store/t-shirt-1.avif"
           "Buy Classic T-Shirt"
           "Comfortable and stylish classic cotton t-shirts"
           [ "fashion"; "cotton"; "t-shirt" ] (clock 0%nat);
       "acme-cup" :=
         handle_product "002" "acme-cup" "Acme Cup"
           "A stylish cup for all your drinking needs."
           "<p>A stylish cup for all your drinking needs.</p>"
           "9.99" "19.99" "002-small" "19.99"
           "/local_data_store/image copy.png"
           "Buy Acme Cup"
           "Discover our stylish and durable Acme cups."
           [ "home"; "cup"; "acme" ] (clock 1%nat);
       "acme-drawstring-bag" :=
         handle_product "003" "acme-drawstring-bag" "Acme Drawstring Bag"
           "Perfect for on-the-go storage of your essentials."
           "<p>Perfect for on-the-go storage of your essentials.</p>"
           "14.99" "14.99" "003-small" "14.99"
           "/local_data_store/image.png"
           "Buy Acme Drawstring Bag"
           "Your perfect travel companion, our drawstring bags."
           [ "fashion"; "bag"; "drawstring" ] (clock 2%nat) ]} in
  get_property staticProducts handle.

(** [getProductRecommendations].  The fallback [|| []] is taken for
    [undefined] only: an array of the literal is truthy even when empty,
    and so is every inherited value. *)
Definition getProductRecommendations (clock : nat → string)
    (productId : string) : property (list Product) :=
  let staticProductRecommendations : gmap string (list Product) :=
    {[ "001" :=
         [ {| p_id := "002";
              p_handle := "vintage-hoodie";
              p_title := "Vintage Hoodie";
              p_availableForSale := true;
              p_description := "A cozy hoodie for chilly evenings.";
              p_descriptionHtml := "<p>A cozy hoodie for chilly evenings.</p>";
              p_options :=
                [ {| po_id := "opt2"; po_name := "Size";
                     po_values := [ "Small"; "Medium"; "Large" ] |} ];
              p_priceRange := {| maxVariantPrice := USD "39.99";
                                 minVariantPrice := USD "39.99" |};
              p_variants :=
                [ {| pv_id := "002-large";
                     pv_title := "Large Size";
                     pv_availableForSale := true;
                     pv_selectedOptions :=
                       [ {| so_name := "Size"; so_value := "Large" |} ];
                     pv_price := USD "39.99" |} ];
              p_images :=
                [ image500 "/local_data_store/t-shirt-1.avif"
                           "Vintage Hoodie" ];
              p_featuredImage :=
                image500 "/local_data_store/t-shirt-1.avif"
                         "Feature image of Vintage Hoodie";
              p_seo :=
                {| seo_title := "Buy Vintage Hoodie";
                   seo_description :=
                     "Stay warm with our vintage hoodies." |};
              p_tags := [ "hoodie"; "vintage"; "winter" ];
              p_updatedAt := clock 0%nat |} ] ]} in
  match get_property staticProductRecommendations productId with
  | Some recommendations => recommendations
  | None => Own []
  end.

(** ** Notions used to state the properties *)

(** [s] holds no line terminator. *)
Fixpoint single_line (s : string) : bool :=
  match s with
  | EmptyString => true
  | String c s' => negb (is_line_terminator c) && single_line s'
  end.

(** [sub] occurs in [s]. *)
Definition contains (s sub : string) : Prop :=
  ∃ pre post, s = pre +:+ sub +:+ post.

(** ** Data for the examples *)

(** A clock that always shows the same instant. *)
Definition epoch_clock : nat → string := λ _, "1970-01-01T00:00:00.000Z".

(** An upstream cart priced in euros with no tax amount. *)
Definition euro_cost : ShopifyCartCost :=
  {| s_subtotalAmount := {| amount := "25.00"; currencyCode := "EUR" |};
     s_totalAmount := {| amount := "25.00"; currencyCode := "EUR" |};
     s_totalTaxAmount := None |}.

Definition euro_cart : ShopifyCart :=
  {| s_id := "gid://shopify/Cart/1";
     s_checkoutUrl := "https://example.com/checkout";
     s_cost := Some euro_cost;
     s_lines := {| edges := [] |};
     s_totalQuantity := 0 |}.

(** An upstream collection. *)
Definition sale_collection : ShopifyCollection :=
  {| sc_handle := "sale"; sc_title := "Sale"; sc_description := "On sale";
     sc_seo := {| seo_title := "Sale"; seo_description := "On sale" |};
     sc_updatedAt := "2024-01-01T00:00:00.000Z" |}.

(** An image with no alt text whose url has no dot after a slash. *)
Definition plain_image : Image :=
  {| url := "/images/hoodie"; altText := None; width := 500; height := 500 |}.

(** Two products that differ in handle only, hence equal at "id". *)
Definition tshirt : Product :=
  collection_product "classic-t-shirt" "Acme Classic T-Shirt"
    "A classic cotton t-shirt" "<p>A classic cotton t-shirt</p>"
    "/local_data_store/t-shirt-1.avif" "1970-01-01T00:00:00.000Z".

Definition cup : Product :=
  collection_product "acme-cup" "Acme Cup" "A cup" "<p>A cup</p>"
    "/local_data_store/image copy.png" "1970-01-01T00:00:00.000Z".

(** * Properties *)

(** Refutes [H : a ∈ [b; c; ...]] for a constant [a] that is none of the
    elements. *)
Ltac no_element H :=
  repeat (apply elem_of_cons in H as [H|H]; [discriminate H|]); inversion H.

(** ** Carts *)

(** Numbers up to 2^53 in magnitude are doubles: nothing is rounded
    away. *)
Lemma round53_safe (x : Z) : Z.abs x ≤ 2 ^ 53 → round53 x = x.
Proof.
  intros Hx.
  destruct (decide (Z.abs x = 2 ^ 53)) as [Heq|Hne].
  - destruct (Z.abs_spec x) as [[_ H]|[_ H]]; rewrite H in Heq.
    + by subst x.
    + replace x with (- 2 ^ 53) by lia. reflexivity.
  - unfold round53.
    assert (Hlog : Z.log2 (Z.abs x) - 52 ≤ 0).
    { destruct (decide (Z.abs x = 0)) as [->|H0]; [done|].
      assert (Z.log2 (Z.abs x) < 53); [|lia].
      apply Z.log2_lt_pow2; lia. }
    apply Z.leb_le in Hlog. by rewrite Hlog.
Qed.

Lemma to_double_safe (x : Z) : Z.abs x ≤ 2 ^ 53 → to_double x = Some x.
Proof.
  intros Hx. unfold to_double. rewrite round53_safe by done.
  assert (H : Z.abs x < 2 ^ 1024).
  { eapply Z.le_lt_trans; [exact Hx|reflexivity]. }
  apply Z.ltb_lt in H. by rewrite H.
Qed.

Lemma toFixed2_safe (x : Z) :
  Z.abs x ≤ 2 ^ 53 → toFixed2 x = Some (pretty x +:+ ".00").
Proof.
  intros Hx. unfold toFixed2.
  assert (H : Z.abs x < 10 ^ 21).
  { eapply Z.le_lt_trans; [exact Hx|reflexivity]. }
  apply Z.ltb_lt in H. by rewrite H.
Qed.

Lemma magnitudes_nonneg (ls : list UpdateLine) :
  0 ≤ foldr Z.add 0 (map (λ line, Z.abs (upd_quantity line)) ls).
Proof. induction ls as [|line ls IH]; cbn [foldr map]; lia. Qed.

Lemma updateCart_line_safe (line : UpdateLine) :
  40 * Z.abs (upd_quantity line) ≤ 2 ^ 53 →
  ∃ item, updateCart_line line = Some item
          ∧ line_id item = upd_id line
          ∧ m_id (merchandise item) = upd_merchandiseId line
          ∧ quantity item = upd_quantity line
          ∧ amount (line_totalAmount (line_cost item))
            = pretty (40 * upd_quantity line) +:+ ".00".
Proof.
  intros Hq. unfold updateCart_line, is_double, number_mul.
  rewrite (to_double_safe (upd_quantity line)) by lia.
  rewrite bool_decide_eq_true_2 by done.
  rewrite (to_double_safe (40 * upd_quantity line)) by lia.
  cbn [mbind option_bind].
  rewrite toFixed2_safe by lia.
  eexists. split; [reflexivity|]. by cbn.
Qed.

Lemma fold_left_quantities (ls : list UpdateLine) (acc : Z) :
  Z.abs acc + foldr Z.add 0 (map (λ line, Z.abs (upd_quantity line)) ls)
  ≤ 2 ^ 53 →
  fold_left (λ total line, t ← total; number_add t (upd_quantity line))
            ls (Some acc)
  = Some (acc + foldr Z.add 0 (map upd_quantity ls)).
Proof.
  revert acc.
  induction ls as [|line ls IH]; intros acc Hacc;
    cbn [fold_left foldr map] in *.
  - f_equal. lia.
  - assert (Htail := magnitudes_nonneg ls).
    cbn [mbind option_bind]. unfold number_add at 2.
    rewrite to_double_safe by lia.
    rewrite IH by lia. f_equal. lia.
Qed.

Lemma sum_quantities_Forall2 (ls : list UpdateLine) (items : list CartItem) :
  Forall2 (λ line item, quantity item = upd_quantity line) ls items →
  sum_quantities items = foldr Z.add 0 (map upd_quantity ls).
Proof.
  induction 1 as [|line item ls items Hq _ IH]; [reflexivity|].
  unfold sum_quantities in *. simpl. by rewrite IH, Hq.
Qed.

(** [updateCart] while the numbers stay among those that doubles hold
    exactly. *)
Lemma updateCart_safe (cartId : string) (ls : list UpdateLine) :
  40 * foldr Z.add 0 (map (λ line, Z.abs (upd_quantity line)) ls) ≤ 2 ^ 53 →
  ∃ c, updateCart cartId ls = Some c
       ∧ cart_id c = cartId
       ∧ Forall2 (λ line item,
                    line_id item = upd_id line
                    ∧ m_id (merchandise item) = upd_merchandiseId line
                    ∧ quantity item = upd_quantity line
                    ∧ amount (line_totalAmount (line_cost item))
                      = pretty (40 * upd_quantity line) +:+ ".00")
                 ls (lines c)
       ∧ totalQuantity c = foldr Z.add 0 (map upd_quantity ls).
Proof.
  intros Hsum.
  assert (Hnonneg := magnitudes_nonneg).
  assert (Hitems : ∃ items,
            mapM updateCart_line ls = Some items
            ∧ Forall2 (λ line item,
                         line_id item = upd_id line
                         ∧ m_id (merchandise item) = upd_merchandiseId line
                         ∧ quantity item = upd_quantity line
                         ∧ amount (line_totalAmount (line_cost item))
                           = pretty (40 * upd_quantity line) +:+ ".00")
                      ls items).
  { induction ls as [|line ls IH].
    - exists []. split; [reflexivity|constructor].
    - cbn [foldr map] in Hsum. specialize (Hnonneg ls).
      destruct IH as (items & Hm & HF); [lia|].
      destruct (updateCart_line_safe line) as (item & Hitem & Hprops); [lia|].
      exists (item :: items). split; [|by constructor].
      cbn [mapM]. rewrite Hitem, Hm. reflexivity. }
  destruct Hitems as (items & Hm & HF).
  unfold updateCart, reduce_quantities. rewrite Hm.
  rewrite fold_left_quantities by (specialize (Hnonneg ls); lia).
  eexists. split; [reflexivity|]. cbn.
  split; [reflexivity|]. split; [exact HF|]. lia.
Qed.

Example toFixed2_80 :
  number_mul 40 2 = Some 80 ∧ toFixed2 80 = Some "80.00".
Proof. split; reflexivity. Qed.

Example updateCart_two_lines :
  ∃ c, updateCart "abc"
         [ {| upd_id := "line1"; upd_merchandiseId := "001";
              upd_quantity := 2 |};
           {| upd_id := "line2"; upd_merchandiseId := "002";
              upd_quantity := 3 |} ] = Some c
       ∧ totalQuantity c = 5
       ∧ map quantity (lines c) = [ 2; 3 ]
       ∧ map (λ l, amount (line_totalAmount (line_cost l))) (lines c)
         = [ "80.00"; "120.00" ].
Proof. eexists. split; [vm_compute; reflexivity|]. repeat split. Qed.

(** Beyond 2^53 the additions round: of the quantities 2^53 and 1 the
    total is 2^53, one less than the sum of the quantities of the
    lines. *)
Example updateCart_rounds :
  ∃ c, updateCart "abc"
         [ {| upd_id := "line1"; upd_merchandiseId := "001";
              upd_quantity := 2 ^ 53 |};
           {| upd_id := "line2"; upd_merchandiseId := "002";
              upd_quantity := 1 |} ] = Some c
       ∧ totalQuantity c = 2 ^ 53
       ∧ sum_quantities (lines c) = 2 ^ 53 + 1
       ∧ map (λ l, amount (line_totalAmount (line_cost l))) (lines c)
         = [ "360287970189639680.00"; "40.00" ].
Proof. eexists. split; [vm_compute; reflexivity|]. repeat split. Qed.

Lemma updateCart_totalQuantity (cartId : string) (ls : list UpdateLine) :
  40 * foldr Z.add 0 (map (λ line, Z.abs (upd_quantity line)) ls) ≤ 2 ^ 53 →
  ∃ c, updateCart cartId ls = Some c
       ∧ totalQuantity c = sum_quantities (lines c).
Proof.
  intros H. destruct (updateCart_safe cartId ls H) as (c & Hc & _ & HF & Ht).
  exists c. split; [exact Hc|]. rewrite Ht. symmetry.
  apply sum_quantities_Forall2.
  eapply Forall2_impl; [exact HF|]. by intros line item (_ & _ & ? & _).
Qed.

Lemma addToCart_totalQuantity (cartId : string) (ls : list AddLine) :
  totalQuantity (addToCart cartId ls)
  = sum_quantities (lines (addToCart cartId ls)).
Proof. reflexivity. Qed.

Lemma removeFromCart_totalQuantity (cartId : string) (ids : list string) :
  totalQuantity (removeFromCart cartId ids)
  = sum_quantities (lines (removeFromCart cartId ids)).
Proof. reflexivity. Qed.

Lemma getCart_Some (cartId : option string) (c : Cart) :
  getCart cartId = Some c →
  ∃ id, cartId = Some id ∧ id ≠ "" ∧ cart_id c = id
        ∧ lines c = [ tshirt_line 2 "60.00" ] ∧ totalQuantity c = 2.
Proof.
  destruct cartId as [id|]; simpl; [|discriminate].
  destruct (String.eqb_spec id "") as [->|Hne]; simpl; [discriminate|].
  intros [= <-]. exists id. simpl. auto.
Qed.

Lemma getCart_nonempty (id : string) :
  id ≠ "" →
  getCart (Some id)
  = Some {| cart_id := id;
            checkoutUrl := "https://example.com/checkout";
            cost := {| subtotalAmount := USD "120.00";
                       totalAmount := USD "130.00";
                       totalTaxAmount := USD "10.00" |};
            lines := [ tshirt_line 2 "60.00" ];
            totalQuantity := 2 |}.
Proof.
  intros Hne. simpl.
  destruct (String.eqb_spec id "") as [->|_]; [done|reflexivity].
Qed.

Lemma getCart_totalQuantity (cartId : option string) (c : Cart) :
  getCart cartId = Some c → totalQuantity c = sum_quantities (lines c).
Proof.
  intros (id & _ & _ & _ & Hl & Hq)%getCart_Some. rewrite Hl, Hq. reflexivity.
Qed.

Lemma getCart_absent : getCart None = None ∧ getCart (Some "") = None.
Proof. split; reflexivity. Qed.

(** C1 (code defect).  The cart of [createCart] carries one line of
    quantity 5 and a [totalQuantity] of 1: the total is not the sum of
    the quantities of the lines.  (The other cart operations keep the
    invariant: [addToCart_totalQuantity], [removeFromCart_totalQuantity],
    [getCart_totalQuantity], and [updateCart_totalQuantity] while the
    sums are exact.) *)
Theorem createCart_totalQuantity_mismatch :
  totalQuantity createCart = 1
  ∧ sum_quantities (lines createCart) = 5
  ∧ totalQuantity createCart ≠ sum_quantities (lines createCart).
Proof. repeat split. intros H. discriminate H. Qed.

(** C2, the claim refuted: after [addToCart "abc" [{m1, 2}]] the cart
    read back holds no line of merchandise [m1]. *)
Lemma addToCart_getCart_m1_absent :
  ∃ c, addToCart_then_getCart "abc"
         [ {| add_merchandiseId := "m1"; add_quantity := 2 |} ] = Some c
       ∧ ¬ has_line c "m1" 2.
Proof.
  eexists. split; [reflexivity|].
  intros (line & Hin & Hm & _). simpl in Hin.
  apply list_elem_of_singleton in Hin. subst line. discriminate Hm.
Qed.

(** C2 as amended.  For a non-empty cart id, [addToCart] followed by
    [getCart] returns the fixed cart of [getCart] under that id, whatever
    lines were requested; it holds a line of merchandise [m] and quantity
    [q] exactly when [m] is "001" and [q] is 2. *)
Theorem addToCart_getCart_fixed (cartId : string) (ls : list AddLine)
    (m : string) (q : Z) :
  cartId ≠ "" →
  ∃ c, addToCart_then_getCart cartId ls = Some c
       ∧ cart_id c = cartId
       ∧ lines c = [ tshirt_line 2 "60.00" ]
       ∧ (has_line c m q ↔ m = "001" ∧ q = 2).
Proof.
  intros Hne. unfold addToCart_then_getCart.
  rewrite (getCart_nonempty _ Hne). eexists. split; [reflexivity|].
  simpl. split; [reflexivity|]. split; [reflexivity|]. split.
  - intros (line & Hin & Hm & Hq). simpl in Hin.
    apply list_elem_of_singleton in Hin. subst line. simpl in *. auto.
  - intros [-> ->]. exists (tshirt_line 2 "60.00"). simpl.
    split; [apply list_elem_of_singleton; reflexivity|auto].
Qed.

Lemma addToCart_getCart_fixed_witness :
  "abc" ≠ ""
  ∧ ∃ c, addToCart_then_getCart "abc"
           [ {| add_merchandiseId := "001"; add_quantity := 2 |} ] = Some c
         ∧ cart_id c = "abc"
         ∧ lines c = [ tshirt_line 2 "60.00" ]
         ∧ (has_line c "001" 2 ↔ "001" = "001" ∧ 2 = 2).
Proof.
  split; [discriminate|].
  apply (addToCart_getCart_fixed "abc"
           [ {| add_merchandiseId := "001"; add_quantity := 2 |} ] "001" 2).
  discriminate.
Defined.

(** ** Collections *)

Lemma reshapeCollection_path (sc : ShopifyCollection) (c : Collection) :
  reshapeCollection (Some sc) = Some c →
  handle c = sc_handle sc ∧ path c = "/search/" +:+ handle c.
Proof. intros [= <-]. split; reflexivity. Qed.

Lemma reshapeCollection_absent : reshapeCollection None = None.
Proof. reflexivity. Qed.

Lemma reshapeCollections_path (l : list (option ShopifyCollection))
    (c : Collection) :
  c ∈ reshapeCollections l → path c = "/search/" +:+ handle c.
Proof.
  induction l as [|[sc|] l IH]; simpl.
  - intros H. inversion H.
  - intros [->|H]%elem_of_cons; [reflexivity|auto].
  - exact IH.
Qed.

Lemma getCollections_value (clock : nat → string) :
  getCollections clock
  = [ {| handle := "";
         title := "All";
         description := "All products";
         seo := {| seo_title := "All"; seo_description := "All products" |};
         updatedAt := clock 0%nat;
         path := "/search" |} ].
Proof. reflexivity. Qed.

(** Reading a property: the three cases. *)
Lemma get_property_own {T : Type} (own : gmap string T) (key : string)
    (value : T) :
  own !! key = Some value → get_property own key = Some (Own value).
Proof. intros H. unfold get_property. by rewrite H. Qed.

Lemma get_property_inherited {T : Type} (own : gmap string T)
    (key : string) :
  own !! key = None → key ∈ object_prototype_names →
  get_property own key = Some (Inherited key).
Proof.
  intros H Hin. unfold get_property. by rewrite H, bool_decide_eq_true_2.
Qed.

Lemma get_property_undefined {T : Type} (own : gmap string T)
    (key : string) :
  own !! key = None → key ∉ object_prototype_names →
  get_property own key = None.
Proof.
  intros H Hin. unfold get_property. by rewrite H, bool_decide_eq_false_2.
Qed.

Lemma get_property_Own {T : Type} (own : gmap string T) (key : string)
    (value : T) :
  get_property own key = Some (Own value) ↔ own !! key = Some value.
Proof.
  unfold get_property. destruct (own !! key) as [v|].
  - split; congruence.
  - destruct (bool_decide _); split; congruence.
Qed.

Lemma getCollection_All (clock : nat → string) :
  getCollection clock "All"
  = Some (Own {| handle := "spring-2020";
                 title := "Spring 2020 Collection";
                 description :=
                   "Explore our exciting new collection for Spring 2020!";
                 seo :=
                   {| seo_title := "Spring 2020 Collection";
                      seo_description :=
                        "Browse our Spring 2020 collection featuring vibrant colors and fresh designs." |};
                 updatedAt := clock 0%nat;
                 path := "/collections/spring-2020" |}).
Proof.
  unfold getCollection. apply get_property_own, lookup_singleton_eq.
Qed.

Lemma getCollection_other (clock : nat → string) (h : string) :
  h ≠ "All" → h ∉ object_prototype_names → getCollection clock h = None.
Proof.
  intros Hne Hin. unfold getCollection.
  apply get_property_undefined; [by apply lookup_singleton_ne|done].
Qed.

Lemma getCollection_inherited (clock : nat → string) (h : string) :
  h ∈ object_prototype_names → getCollection clock h = Some (Inherited h).
Proof.
  intros Hin. unfold getCollection.
  apply get_property_inherited; [|done].
  apply lookup_singleton_ne. intros <-. no_element Hin.
Qed.

(** C3, the claim refuted: the collection listed by [getCollections] has
    the empty handle and the path "/search", which is not "/search/"
    followed by the handle. *)
Lemma getCollections_path_not_derived :
  ∃ c, c ∈ getCollections epoch_clock
       ∧ path c ≠ "/search/" +:+ handle c.
Proof.
  eexists. split.
  - rewrite getCollections_value. apply list_elem_of_singleton. reflexivity.
  - simpl. discriminate.
Qed.

(** C3 as amended.  Every collection made by [reshapeCollection] or
    [reshapeCollections] has the path "/search/" followed by its handle;
    the collection listed by [getCollections] is the one with the empty
    handle, and its path is "/search". *)
Theorem collection_paths :
  (∀ sc c, reshapeCollection (Some sc) = Some c →
           path c = "/search/" +:+ handle c)
  ∧ (∀ l c, c ∈ reshapeCollections l → path c = "/search/" +:+ handle c)
  ∧ (∀ clock c, c ∈ getCollections clock →
                handle c = "" ∧ path c = "/search").
Proof.
  split; [|split].
  - intros sc c H. apply (reshapeCollection_path sc c H).
  - apply reshapeCollections_path.
  - intros clock c. rewrite getCollections_value.
    intros ->%list_elem_of_singleton. split; reflexivity.
Qed.

Lemma collection_paths_witness :
  ∃ c all,
    reshapeCollection (Some sale_collection) = Some c
    ∧ path c = "/search/" +:+ handle c
    ∧ c ∈ reshapeCollections [ None; Some sale_collection ]
    ∧ all ∈ getCollections epoch_clock
    ∧ handle all = "" ∧ path all = "/search".
Proof.
  eexists. eexists.
  split; [reflexivity|].
  split; [apply (proj1 collection_paths sale_collection); reflexivity|].
  split; [apply list_elem_of_singleton; reflexivity|].
  assert (Hin : {| handle := "";
                   title := "All";
                   description := "All products";
                   seo := {| seo_title := "All";
                             seo_description := "All products" |};
                   updatedAt := epoch_clock 0%nat;
                   path := "/search" |} ∈ getCollections epoch_clock).
  { rewrite getCollections_value. apply list_elem_of_singleton. reflexivity. }
  split; [exact Hin|].
  apply (proj2 (proj2 collection_paths) epoch_clock _ Hin).
Defined.

(** C10 (code defect).  [getCollection] finds a collection only under
    the handle "All", and that collection has the handle "spring-2020",
    which is not the handle it was looked up by and under which nothing
    is found.  It does not return [undefined] for every other handle:
    for "constructor", and for every other name inherited from
    [Object.prototype], it returns the inherited value, which is neither
    a collection nor [undefined].  The handles that are neither "All"
    nor inherited names find nothing. *)
Theorem getCollection_only_All (clock : nat → string) :
  getCollection clock "constructor" = Some (Inherited "constructor")
  ∧ (∀ h, h ∈ object_prototype_names →
          h ≠ "All" ∧ getCollection clock h = Some (Inherited h))
  ∧ (∀ h c, getCollection clock h = Some (Own c) → h = "All")
  ∧ (∀ h, h ≠ "All" → h ∉ object_prototype_names →
          getCollection clock h = None)
  ∧ getCollection clock "spring-2020" = None
  ∧ (∃ c, getCollection clock "All" = Some (Own c)
          ∧ handle c = "spring-2020" ∧ handle c ≠ "All"
          ∧ getCollection clock (handle c) = None).
Proof.
  assert (Hspring : getCollection clock "spring-2020" = None).
  { apply getCollection_other; [done|]. intros Hin. no_element Hin. }
  split; [|split; [|split; [|split; [|split]]]].
  - apply getCollection_inherited, elem_of_cons. by left.
  - intros h Hin. split; [|by apply getCollection_inherited].
    intros ->. no_element Hin.
  - intros h c H. unfold getCollection in H.
    apply get_property_Own in H.
    destruct (decide (h = "All")) as [|Hne]; [done|].
    by rewrite lookup_singleton_ne in H.
  - apply getCollection_other.
  - exact Hspring.
  - eexists. split; [apply getCollection_All|]. simpl.
    split; [reflexivity|]. split; [discriminate|]. exact Hspring.
Qed.

Lemma getCollection_only_All_witness :
  "toString" ∈ object_prototype_names
  ∧ getCollection epoch_clock "toString" = Some (Inherited "toString")
  ∧ "unknown-handle" ≠ "All"
  ∧ ("unknown-handle" ∉ object_prototype_names)
  ∧ getCollection epoch_clock "unknown-handle" = None.
Proof.
  assert (Hin : "toString" ∈ object_prototype_names).
  { do 8 (apply elem_of_cons; right). apply elem_of_cons. by left. }
  assert (Hne : "unknown-handle" ≠ "All") by discriminate.
  assert (Hout : "unknown-handle" ∉ object_prototype_names).
  { intros H. no_element H. }
  split; [exact Hin|]. split.
  - apply (proj1 (proj2 (getCollection_only_All epoch_clock)) "toString" Hin).
  - split; [exact Hne|]. split; [exact Hout|].
    apply (proj1 (proj2 (proj2 (proj2 (getCollection_only_All epoch_clock))))
             "unknown-handle" Hne Hout).
Defined.

(** ** [reshapeCart] *)

(** C4, the claim refuted: a cart priced in euros with no tax amount is
    given a tax amount in US dollars. *)
Lemma reshapeCart_tax_not_in_cart_currency :
  ∃ c K, s_cost euro_cart = Some K
         ∧ s_totalTaxAmount K = None
         ∧ currencyCode (s_totalAmount K) = "EUR"
         ∧ reshapeCart euro_cart = Normal c
         ∧ currencyCode (totalTaxAmount (cost c))
           ≠ currencyCode (s_totalAmount K).
Proof.
  eexists. eexists. split; [reflexivity|].
  split; [reflexivity|]. split; [reflexivity|].
  split; [reflexivity|]. simpl. discriminate.
Qed.

(** C4 as amended.  For every cart whose cost lacks a tax amount,
    [reshapeCart] returns a cart whose tax amount is present, with the
    amount "0.0" and the currency code "USD" whatever the currency of the
    cart; the other two amounts are kept. *)
Theorem reshapeCart_default_tax (K : ShopifyCart) (c : ShopifyCartCost) :
  s_cost K = Some c →
  s_totalTaxAmount c = None →
  ∃ r, reshapeCart K = Normal r
       ∧ totalTaxAmount (cost r) = {| amount := "0.0"; currencyCode := "USD" |}
       ∧ subtotalAmount (cost r) = s_subtotalAmount c
       ∧ totalAmount (cost r) = s_totalAmount c.
Proof.
  intros Hc Ht. unfold reshapeCart. rewrite Hc, Ht.
  eexists. split; [reflexivity|]. simpl. auto.
Qed.

Lemma reshapeCart_default_tax_witness :
  s_cost euro_cart = Some euro_cost
  ∧ s_totalTaxAmount euro_cost = None
  ∧ ∃ r, reshapeCart euro_cart = Normal r
         ∧ totalTaxAmount (cost r)
           = {| amount := "0.0"; currencyCode := "USD" |}
         ∧ subtotalAmount (cost r) = s_subtotalAmount euro_cost
         ∧ totalAmount (cost r) = s_totalAmount euro_cost.
Proof.
  split; [reflexivity|]. split; [reflexivity|].
  apply (reshapeCart_default_tax euro_cart euro_cost); reflexivity.
Defined.

Lemma reshapeCart_keeps_tax (K : ShopifyCart) (c : ShopifyCartCost)
    (t : Money) :
  s_cost K = Some c →
  s_totalTaxAmount c = Some t →
  ∃ r, reshapeCart K = Normal r ∧ totalTaxAmount (cost r) = t.
Proof.
  intros Hc Ht. unfold reshapeCart. rewrite Hc, Ht.
  eexists. split; reflexivity.
Qed.

Lemma reshapeCart_without_cost (K : ShopifyCart) :
  s_cost K = None → ∃ e, reshapeCart K = Throw e.
Proof. intros Hc. unfold reshapeCart. rewrite Hc. eauto. Qed.

(** ** [reshapeImages] and the filename pattern *)

Example match_filename_fixture :
  match_filename "/local_data_store/t-shirt-1.avif" = Some "t-shirt-1".
Proof. reflexivity. Qed.

Example match_filename_last_segment :
  match_filename "https://cdn.shop/a.b/c.d.png?v=1" = Some "c.d".
Proof. reflexivity. Qed.

Example match_filename_second_line :
  match_filename ("a" +:+ String "010" "b/c.d") = Some "c".
Proof. reflexivity. Qed.

Example match_filename_no_dot_after_slash :
  match_filename "cdn.shop/images/hoodie" = None.
Proof. reflexivity. Qed.

Lemma tail_of_cons (c : ascii) (s t : string) :
  tail_of (String c t) s → tail_of t s.
Proof.
  remember (String c t) as u eqn:Hu. intros H. revert c t Hu.
  induction H as [s|a s u H IH]; intros c t ->.
  - apply tail_later, tail_here.
  - apply tail_later. eapply IH. reflexivity.
Qed.

Lemma has_char_tail (c : ascii) (s t : string) :
  tail_of t s → has_char c s = false → has_char c t = false.
Proof.
  induction 1 as [s|a s t _ IH]; [done|]. simpl.
  intros [_ H]%orb_false_elim. auto.
Qed.

Section MatcherFacts.
Context {R : Type}.

(** A starred dot fails when what follows it fails at every position. *)
Lemma dot_star_fails (k : string → string → option R) (s consumed : string) :
  (∀ t u, tail_of u s → k t u = None) → dot_star k consumed s = None.
Proof.
  revert consumed. induction s as [|c s IH]; intros consumed Hk; simpl.
  - apply Hk, tail_here.
  - destruct (is_line_terminator c).
    + apply Hk, tail_here.
    + rewrite IH.
      * apply Hk, tail_here.
      * intros t u Hu. apply Hk, tail_later, Hu.
Qed.

Lemma lit_cons (c a : ascii) (k : string → option R) (s : string) :
  lit c k (String a s) = if Ascii.eqb c a then k s else None.
Proof. reflexivity. Qed.

Lemma lit_absent (c : ascii) (k : string → option R) (s : string) :
  has_char c s = false → lit c k s = None.
Proof.
  destruct s as [|a s]; simpl; [done|].
  intros [-> _]%orb_false_elim. reflexivity.
Qed.

Lemma dot_star_lit_absent (c : ascii) (k : string → string → option R)
    (s consumed : string) :
  has_char c s = false → dot_star (λ t, lit c (k t)) consumed s = None.
Proof.
  intros Hc. apply dot_star_fails. intros t u Hu.
  apply lit_absent. eapply has_char_tail; eassumption.
Qed.

End MatcherFacts.

Lemma match_here_no_slash (s : string) :
  has_char "/" s = false → match_here s = None.
Proof. intros H. unfold match_here. by apply dot_star_lit_absent. Qed.

Lemma match_here_no_dot (s : string) :
  has_char "." s = false → match_here s = None.
Proof.
  intros H. unfold match_here. apply dot_star_fails. intros _ u Hu.
  destruct u as [|a u]; [reflexivity|]. rewrite lit_cons.
  destruct (Ascii.eqb "/" a); [|reflexivity].
  apply dot_star_lit_absent.
  apply (has_char_tail _ _ _ (tail_of_cons _ _ _ Hu) H).
Qed.

(** A url without a slash, or without a dot, has no filename. *)
Lemma match_filename_no_slash (s : string) :
  has_char "/" s = false → match_filename s = None.
Proof.
  induction s as [|c s IH]; intros H.
  - reflexivity.
  - simpl match_filename. rewrite (match_here_no_slash _ H).
    simpl in H. apply orb_false_elim in H as [_ H]. auto.
Qed.

Lemma match_filename_no_dot (s : string) :
  has_char "." s = false → match_filename s = None.
Proof.
  induction s as [|c s IH]; intros H.
  - reflexivity.
  - simpl match_filename. rewrite (match_here_no_dot _ H).
    simpl in H. apply orb_false_elim in H as [_ H]. auto.
Qed.

(** The pattern matches exactly the strings in which some slash has a dot
    after it on the same line. *)
Lemma dot_star_accepts (g consumed s : string) :
  dot_star (λ _ _, Some g) consumed s = Some g.
Proof.
  revert consumed. induction s as [|c s IH]; intros consumed; simpl; [done|].
  destruct (is_line_terminator c); [done|]. by rewrite IH.
Qed.

Lemma line_terminator_not_dot (c : ascii) :
  is_line_terminator c = true → Ascii.eqb "." c = false.
Proof.
  intros H. destruct (Ascii.eqb_spec "." c) as [<-|]; [discriminate H|done].
Qed.

Lemma group_then_dot_matches (s consumed : string) :
  dot_on_line s = true →
  ∃ g, dot_star (λ group1, lit "." (dot_star (λ _ _, Some group1) ""))
                consumed s = Some g.
Proof.
  revert consumed. induction s as [|c s IH]; intros consumed;
    cbn [dot_on_line dot_star]; [discriminate|].
  destruct (is_line_terminator c); [discriminate|]. intros Hdot.
  destruct (dot_star _ (consumed +:+ String c "") s) as [r|] eqn:Hlong;
    [by exists r|].
  rewrite lit_cons. destruct (Ascii.eqb "." c); cbn [orb] in Hdot.
  - exists consumed. apply dot_star_accepts.
  - destruct (IH (consumed +:+ String c "") Hdot) as [g Hg]. congruence.
Qed.

Lemma group_then_dot_fails (s consumed : string) :
  dot_on_line s = false →
  dot_star (λ group1, lit "." (dot_star (λ _ _, Some group1) ""))
           consumed s = None.
Proof.
  revert consumed. induction s as [|c s IH]; intros consumed;
    cbn [dot_on_line dot_star]; [done|].
  rewrite lit_cons. destruct (is_line_terminator c) eqn:Hc.
  - intros _. by rewrite (line_terminator_not_dot c Hc).
  - intros [-> Hdot]%orb_false_elim. by rewrite IH.
Qed.

Lemma slash_then_dot_tail (s t : string) :
  tail_of t s → slash_then_dot s = false → slash_then_dot t = false.
Proof.
  induction 1 as [s|a s t _ IH]; [done|]. cbn [slash_then_dot].
  intros [_ H]%orb_false_elim. auto.
Qed.

Lemma match_here_fails (s : string) :
  slash_then_dot s = false → match_here s = None.
Proof.
  intros H. unfold match_here. apply dot_star_fails. intros _ u Hu.
  destruct u as [|a u]; [reflexivity|]. rewrite lit_cons.
  destruct (Ascii.eqb "/" a) eqn:Ha; [|reflexivity].
  apply group_then_dot_fails.
  pose proof (slash_then_dot_tail _ _ Hu H) as Hu'.
  cbn [slash_then_dot] in Hu'.
  rewrite Ha in Hu'. by apply orb_false_elim in Hu' as [Hu' _].
Qed.

Lemma match_here_slash (c : ascii) (s : string) :
  Ascii.eqb "/" c = true → dot_on_line s = true →
  ∃ g, match_here (String c s) = Some g.
Proof.
  intros Hc Hdot. apply Ascii.eqb_eq in Hc as <-.
  unfold match_here. cbn [dot_star].
  change (is_line_terminator "/") with false. cbn iota.
  destruct (dot_star _ _ s) as [r|]; [by exists r|].
  rewrite lit_cons. change (Ascii.eqb "/" "/") with true. cbn iota.
  apply group_then_dot_matches, Hdot.
Qed.

Lemma match_filename_None (s : string) :
  match_filename s = None ↔ slash_then_dot s = false.
Proof.
  induction s as [|c s IH]; [done|].
  cbn [match_filename slash_then_dot]. split.
  - destruct (match_here (String c s)) as [g|] eqn:Hm; [discriminate|].
    intros Hs%IH. rewrite Hs, orb_false_r.
    destruct (Ascii.eqb "/" c) eqn:Hc; [|done].
    destruct (dot_on_line s) eqn:Hdot; [|done].
    destruct (match_here_slash c s Hc Hdot) as [g Hg]. congruence.
  - intros H. rewrite match_here_fails by done.
    apply orb_false_elim in H as [_ H]. by apply IH.
Qed.

Lemma lookup_map {A B : Type} (f : A → B) (l : list A) (i : nat) :
  map f l !! i = f <$> (l !! i).
Proof.
  revert i. induction l as [|x l IH]; intros [|i]; simpl; auto.
Qed.

(** An image that has an alt text keeps it. *)
Lemma reshapeImages_keeps_altText (images : Connection Image)
    (productTitle : string) (i : nat) (image : Image) :
  removeEdgesAndNodes images !! i = Some image →
  truthy_string (altText image) = true →
  ∃ image', reshapeImages images productTitle !! i = Some image'
            ∧ url image' = url image ∧ altText image' = altText image.
Proof.
  intros Hi Halt. unfold reshapeImages. rewrite lookup_map, Hi. simpl.
  rewrite Halt. eexists. split; [reflexivity|]. split; reflexivity.
Qed.

(** An image without alt text whose url has a filename gets the title,
    " - " and the filename. *)
Lemma reshapeImages_filename (images : Connection Image)
    (productTitle filename : string) (i : nat) (image : Image) :
  removeEdgesAndNodes images !! i = Some image →
  truthy_string (altText image) = false →
  match_filename (url image) = Some filename →
  ∃ image', reshapeImages images productTitle !! i = Some image'
            ∧ altText image' = Some (productTitle +:+ " - " +:+ filename).
Proof.
  intros Hi Halt Hf. unfold reshapeImages. rewrite lookup_map, Hi. simpl.
  rewrite Halt, Hf. eexists. split; reflexivity.
Qed.

(** C5, the claim refuted: for the product "Acme Hoodie", an image
    without alt text at the url "/images/hoodie", which has no filename,
    gets the alt text "Acme Hoodie - undefined", not the title alone. *)
Lemma reshapeImages_not_title_alone :
  ∃ image',
    truthy_string (altText plain_image) = false
    ∧ match_filename (url plain_image) = None
    ∧ reshapeImages {| edges := [ {| node := plain_image |} ] |} "Acme Hoodie"
      = [ image' ]
    ∧ altText image' = Some "Acme Hoodie - undefined"
    ∧ altText image' ≠ Some "Acme Hoodie".
Proof.
  eexists. split; [reflexivity|]. split; [reflexivity|].
  split; [reflexivity|]. split; [reflexivity|]. discriminate.
Qed.

(** C5 as amended.  For every image lacking alt text whose url the
    filename pattern does not match, [reshapeImages] gives the image, at
    its place in the list, the alt text made of the product title, " - "
    and the word "undefined"; the url and the sizes are kept. *)
Theorem reshapeImages_undefined_filename (images : Connection Image)
    (productTitle : string) (i : nat) (image : Image) :
  removeEdgesAndNodes images !! i = Some image →
  truthy_string (altText image) = false →
  match_filename (url image) = None →
  reshapeImages images productTitle !! i
  = Some {| url := url image;
            altText := Some (productTitle +:+ " - undefined");
            width := width image;
            height := height image |}.
Proof.
  intros Hi Halt Hf. unfold reshapeImages. rewrite lookup_map, Hi. simpl.
  rewrite Halt, Hf. reflexivity.
Qed.

Lemma reshapeImages_undefined_filename_witness :
  removeEdgesAndNodes {| edges := [ {| node := plain_image |} ] |} !! 0%nat
  = Some plain_image
  ∧ truthy_string (altText plain_image) = false
  ∧ match_filename (url plain_image) = None
  ∧ reshapeImages {| edges := [ {| node := plain_image |} ] |} "Acme Hoodie"
      !! 0%nat
    = Some {| url := url plain_image;
              altText := Some ("Acme Hoodie" +:+ " - undefined");
              width := width plain_image;
              height := height plain_image |}.
Proof.
  split; [reflexivity|]. split; [reflexivity|]. split; [reflexivity|].
  apply (reshapeImages_undefined_filename
           {| edges := [ {| node := plain_image |} ] |} "Acme Hoodie" 0%nat
           plain_image); reflexivity.
Defined.

(** ** The stable sort *)

Lemma sublist_filter_mono {A : Type} (P : A → Prop)
    `{!∀ x, Decision (P x)} (l1 l2 : list A) :
  l1 `sublist_of` l2 → filter P l1 `sublist_of` filter P l2.
Proof.
  induction 1 as [|x l1 l2 _ IH|x l1 l2 _ IH]; [constructor| |].
  - rewrite !filter_cons. destruct (decide (P x)); [by constructor|done].
  - rewrite filter_cons. destruct (decide (P x)); [by constructor|done].
Qed.

Section ArraySortFacts.
Context {A : Type} (comparefn : A → A → Z).

Lemma sort_insert_perm (x : A) (l : list A) :
  sort_insert comparefn x l ≡ₚ x :: l.
Proof.
  induction l as [|y l IH]; simpl; [done|].
  destruct (comparefn x y >? 0); [|done].
  rewrite IH. apply Permutation_swap.
Qed.

Lemma array_sort_perm (l : list A) : array_sort comparefn l ≡ₚ l.
Proof.
  induction l as [|x l IH]; simpl; [done|].
  rewrite sort_insert_perm. by rewrite IH.
Qed.

(** Stability.  Let [P] select elements that the comparator never puts
    strictly one after another.  The selected elements then come out of
    the sort exactly as they went in. *)
Section Stable.
Context (P : A → Prop) `{!∀ x, Decision (P x)}.
Hypothesis P_ties : ∀ x y, P x → P y → (comparefn x y >? 0) = false.

Lemma sort_insert_filter (x : A) (l : list A) :
  filter P (sort_insert comparefn x l) = filter P (x :: l).
Proof.
  induction l as [|y l IH]; simpl; [done|].
  destruct (comparefn x y >? 0) eqn:Hxy; [|done].
  rewrite filter_cons, IH. rewrite !filter_cons.
  destruct (decide (P y)) as [Hy|Hy]; [|done].
  destruct (decide (P x)) as [Hx|Hx]; [|done].
  rewrite (P_ties x y Hx Hy) in Hxy. discriminate.
Qed.

Lemma array_sort_filter (l : list A) :
  filter P (array_sort comparefn l) = filter P l.
Proof.
  induction l as [|x l IH]; simpl; [done|].
  rewrite sort_insert_filter, !filter_cons, IH. done.
Qed.

(** The same, by positions: two selected elements that occur one before
    the other in the input occur so in the output. *)
Lemma array_sort_keeps_order (a b : A) (l : list A) :
  P a → P b →
  [a; b] `sublist_of` l → [a; b] `sublist_of` array_sort comparefn l.
Proof.
  intros Ha Hb Hab.
  transitivity (filter P (array_sort comparefn l)); [|apply sublist_filter].
  rewrite array_sort_filter.
  replace [a; b] with (filter P [a; b]).
  - by apply sublist_filter_mono.
  - rewrite !filter_cons, !decide_True by done. done.
Qed.

End Stable.

(** Order.  Let [R] hold of [x], [y] when the comparator does not put
    [x] strictly after [y], and of [y], [x] when it does.  The output of
    the sort is then in the order [R]. *)
Section Ordered.
Context (R : A → A → Prop).
Hypothesis R_keep : ∀ x y, (comparefn x y >? 0) = false → R x y.
Hypothesis R_swap : ∀ x y, (comparefn x y >? 0) = true → R y x.

Lemma sort_insert_HdRel (a x : A) (l : list A) :
  R a x → HdRel R a l → HdRel R a (sort_insert comparefn x l).
Proof.
  intros Hax Hal. destruct l as [|y l]; simpl.
  - by constructor.
  - destruct (comparefn x y >? 0); constructor; [|done].
    by inversion Hal.
Qed.

Lemma sort_insert_Sorted (x : A) (l : list A) :
  Sorted R l → Sorted R (sort_insert comparefn x l).
Proof.
  induction 1 as [|y l Hl IH Hy]; simpl.
  - by repeat constructor.
  - destruct (comparefn x y >? 0) eqn:Hxy.
    + constructor; [done|]. apply sort_insert_HdRel; [|done]. by apply R_swap.
    + constructor; [by constructor|]. constructor. by apply R_keep.
Qed.

Lemma array_sort_Sorted (l : list A) : Sorted R (array_sort comparefn l).
Proof.
  induction l as [|x l IH]; simpl; [constructor|].
  by apply sort_insert_Sorted.
Qed.

End Ordered.
End ArraySortFacts.

(** ** The order of the fields *)

Lemma string_ltb_asym (s t : string) :
  String.ltb s t = true → String.ltb t s = false.
Proof.
  unfold String.ltb. rewrite (String.compare_antisym s t).
  destruct (String.compare t s); simpl; congruence.
Qed.

Lemma string_ltb_irrefl (s : string) : String.ltb s s = false.
Proof.
  unfold String.ltb. pose proof (String.compare_antisym s s) as H.
  destruct (String.compare s s); simpl in H; congruence.
Qed.

Lemma string_ltb_neither (s t : string) :
  String.ltb s t = false → String.ltb t s = false → s = t.
Proof.
  unfold String.ltb. rewrite (String.compare_antisym s t).
  destruct (String.compare t s) eqn:E; simpl; try congruence.
  intros _ _. symmetry. by apply String.compare_eq_iff.
Qed.

Lemma string_compare_lt_trans (s t u : string) :
  String.compare s t = Lt → String.compare t u = Lt →
  String.compare s u = Lt.
Proof.
  revert t u.
  induction s as [|a s IH]; intros [|b t] [|c u];
    cbn [String.compare]; try congruence.
  destruct (Ascii.compare a b) eqn:Hab; [| |congruence].
  - apply Ascii.compare_eq_iff in Hab as ->.
    destruct (Ascii.compare b c); [apply IH|done|congruence].
  - intros _. destruct (Ascii.compare b c) eqn:Hbc; [| |congruence].
    + apply Ascii.compare_eq_iff in Hbc as <-. by rewrite Hab.
    + intros _. assert (Ascii.compare a c = Lt) as ->; [|done].
      exact (N.lt_trans _ _ _ Hab Hbc).
Qed.

Lemma string_ltb_trans (s t u : string) :
  String.ltb s t = true → String.ltb t u = true → String.ltb s u = true.
Proof.
  unfold String.ltb.
  destruct (String.compare s t) eqn:Hst; try discriminate.
  destruct (String.compare t u) eqn:Htu; try discriminate.
  by rewrite (string_compare_lt_trans s t u).
Qed.

(** "Not above" on strings is transitive. *)
Lemma string_le_trans (s t u : string) :
  String.ltb t s = false → String.ltb u t = false → String.ltb u s = false.
Proof.
  intros Hst Htu. destruct (String.ltb u s) eqn:Hus; [|done].
  destruct (String.ltb s t) eqn:Hst'.
  - by rewrite (string_ltb_trans u s t) in Htu.
  - rewrite <- (string_ltb_neither s t) in Htu by done. congruence.
Qed.

Lemma field_lt_asym (k : ProductKey) (a b : Product) :
  field_lt k a b = true → field_lt k b a = false.
Proof.
  unfold field_lt. destruct (comparable k) as [f|f].
  - apply string_ltb_asym.
  - intros H. apply Z.ltb_lt in H. apply Z.ltb_ge. lia.
Qed.

(** Neither of two products is below the other exactly when they hold
    equal values. *)
Lemma same_value_iff (k : ProductKey) (a b : Product) :
  same_value k a b ↔ field_lt k a b = false ∧ field_lt k b a = false.
Proof.
  unfold same_value, field_lt. destruct (comparable k) as [f|f]; split.
  - intros ->. split; apply string_ltb_irrefl.
  - intros [H1 H2]. by apply string_ltb_neither.
  - intros ->. split; apply Z.ltb_irrefl.
  - intros [H1%Z.ltb_ge H2%Z.ltb_ge]. lia.
Qed.

#[global] Instance field_le_trans (k : ProductKey) : Transitive (field_le k).
Proof.
  intros a b c. unfold field_le, field_lt.
  destruct (comparable k) as [f|f].
  - apply string_le_trans.
  - intros H1%Z.ltb_ge H2%Z.ltb_ge. apply Z.ltb_ge. lia.
Qed.

Lemma same_value_refl (k : ProductKey) (a : Product) : same_value k a a.
Proof. unfold same_value. by destruct (comparable k). Qed.

Lemma same_value_trans (k : ProductKey) (a b c : Product) :
  same_value k a b → same_value k b c → same_value k a c.
Proof. unfold same_value. destruct (comparable k); congruence. Qed.

Lemma same_value_sym (k : ProductKey) (a b : Product) :
  same_value k a b → same_value k b a.
Proof. unfold same_value. destruct (comparable k); congruence. Qed.

(** ** Recognized sort keys *)

Lemma field_of_key_name (k : ProductKey) : field_of (key_name k) = Some k.
Proof. by destruct k. Qed.

(** Case analysis on [H : x ∈ [a; b; ...]], closing each case by [tac]. *)
Ltac each_element H tac :=
  repeat (apply elem_of_cons in H as [->|H]; [tac|]); inversion H.

Lemma isValidProductKey_field (key : string) :
  isValidProductKey key = true →
  truthy_string (Some key) = true ∧ ∃ k, field_of key = Some k.
Proof.
  intros H. apply bool_decide_eq_true in H.
  each_element H ltac:(split; [reflexivity|eexists; reflexivity]).
Qed.

Lemma isKeyOfProduct_valid (key : string) :
  isKeyOfProduct key = true → isValidProductKey key = true.
Proof.
  intros H. apply bool_decide_eq_true in H. each_element H ltac:(reflexivity).
Qed.

(** The two recognizers differ on "featuredImage" only. *)
Lemma isKeyOfProduct_iff (key : string) :
  isKeyOfProduct key = true
  ↔ isValidProductKey key = true ∧ key ≠ "featuredImage".
Proof.
  split.
  - intros H. split; [by apply isKeyOfProduct_valid|].
    intros ->. discriminate H.
  - intros [H Hne]. apply bool_decide_eq_true in H. each_element H ltac:(done).
Qed.

Lemma prop_lt_field (key : string) (k : ProductKey) (a b : Product) :
  field_of key = Some k → prop_lt key a b = field_lt k a b.
Proof. intros H. unfold prop_lt. by rewrite H. Qed.

(** ** The two comparators *)

Section Comparators.
Context (key : string) (k : ProductKey).
Hypothesis key_field : field_of key = Some k.

Lemma products_comparefn_tie (reverse : option bool) (a b : Product) :
  same_value k a b → products_comparefn key reverse a b = 0.
Proof.
  intros [H1 H2]%same_value_iff. unfold products_comparefn, prop_gt.
  by rewrite !(prop_lt_field key k), H1, H2.
Qed.

Lemma collection_comparefn_tie (a b : Product) :
  same_value k a b → collection_comparefn key a b = 0.
Proof.
  intros [H1 H2]%same_value_iff. unfold collection_comparefn, prop_gt.
  by rewrite !(prop_lt_field key k), H1, H2.
Qed.

(** Without [reverse] a product moves behind the next one exactly when it
    is above it. *)
Lemma products_comparefn_ascending (reverse : option bool) (a b : Product) :
  truthy_bool reverse = false →
  (products_comparefn key reverse a b >? 0) = field_lt k b a.
Proof.
  intros Hr. unfold products_comparefn, prop_gt.
  rewrite !(prop_lt_field key k), Hr by done.
  destruct (field_lt k a b) eqn:Hab.
  - by rewrite (field_lt_asym _ _ _ Hab).
  - by destruct (field_lt k b a).
Qed.

(** With [reverse] it moves exactly when it is below it. *)
Lemma products_comparefn_descending (reverse : option bool) (a b : Product) :
  truthy_bool reverse = true →
  (products_comparefn key reverse a b >? 0) = field_lt k a b.
Proof.
  intros Hr. unfold products_comparefn, prop_gt.
  rewrite !(prop_lt_field key k), Hr by done.
  destruct (field_lt k a b) eqn:Hab; [done|].
  by destruct (field_lt k b a).
Qed.

Lemma collection_comparefn_ascending (a b : Product) :
  (collection_comparefn key a b >? 0) = field_lt k b a.
Proof.
  unfold collection_comparefn, prop_gt.
  rewrite !(prop_lt_field key k) by done.
  destruct (field_lt k b a); [done|]. by destruct (field_lt k a b).
Qed.

End Comparators.

(** ** Product listings *)

Lemma getProducts_from_sorts (l : list Product) (query : option string)
    (reverse : option bool) (key : string) :
  isKeyOfProduct key = true →
  getProducts_from l query reverse (Some key)
  = array_sort (products_comparefn key reverse) (filter_by_query query l).
Proof.
  intros H. unfold getProducts_from.
  destruct (isValidProductKey_field key (isKeyOfProduct_valid key H)) as [-> _].
  by rewrite H.
Qed.

Lemma getProducts_from_unsorted (l : list Product) (query : option string)
    (reverse : option bool) (sortKey : option string) :
  (∀ key, sortKey = Some key → isKeyOfProduct key = false) →
  getProducts_from l query reverse sortKey = filter_by_query query l.
Proof.
  intros H. unfold getProducts_from. destruct sortKey as [key|]; [|done].
  by rewrite (H key eq_refl), andb_false_r.
Qed.

Lemma getCollectionProducts_from_sorts (l : list Product)
    (collection : string) (reverse : option bool) (key : string) :
  isValidProductKey key = true →
  getCollectionProducts_from l collection reverse (Some key)
  = array_sort (collection_comparefn key) (reversed_if reverse l).
Proof.
  intros H. unfold getCollectionProducts_from.
  destruct (isValidProductKey_field key H) as [-> _]. by rewrite H.
Qed.

Lemma getCollectionProducts_from_unsorted (l : list Product)
    (collection : string) (reverse : option bool)
    (sortKey : option string) :
  (∀ key, sortKey = Some key → isValidProductKey key = false) →
  getCollectionProducts_from l collection reverse sortKey
  = reversed_if reverse l.
Proof.
  intros H. unfold getCollectionProducts_from.
  destruct sortKey as [key|]; [|done].
  by rewrite (H key eq_refl), andb_false_r.
Qed.

Lemma reversed_if_perm (reverse : option bool) (l : list Product) :
  reversed_if reverse l ≡ₚ l.
Proof.
  unfold reversed_if. destruct (truthy_bool reverse); [|done].
  symmetry. apply Permutation_rev.
Qed.

Lemma getCollectionProducts_from_perm (l : list Product)
    (collection : string) (reverse : option bool)
    (sortKey : option string) :
  getCollectionProducts_from l collection reverse sortKey ≡ₚ l.
Proof.
  unfold getCollectionProducts_from.
  destruct sortKey as [key|]; [|apply reversed_if_perm].
  destruct (truthy_string (Some key) && isValidProductKey key).
  - rewrite array_sort_perm. apply reversed_if_perm.
  - apply reversed_if_perm.
Qed.

(** [getProducts] with a recognized key: ascending without [reverse],
    descending with it. *)
Lemma getProducts_from_ascending (l : list Product) (query : option string)
    (reverse : option bool) (key : string) (k : ProductKey) :
  isKeyOfProduct key = true → field_of key = Some k →
  truthy_bool reverse = false →
  StronglySorted (field_le k) (getProducts_from l query reverse (Some key)).
Proof.
  intros Hkey Hk Hr. rewrite getProducts_from_sorts by done.
  apply Sorted_StronglySorted; [apply _|].
  apply array_sort_Sorted; intros x y;
    rewrite (products_comparefn_ascending key k Hk) by done;
    unfold field_le; [done|apply field_lt_asym].
Qed.

Lemma getProducts_from_descending (l : list Product) (query : option string)
    (reverse : option bool) (key : string) (k : ProductKey) :
  isKeyOfProduct key = true → field_of key = Some k →
  truthy_bool reverse = true →
  StronglySorted (flip (field_le k))
                 (getProducts_from l query reverse (Some key)).
Proof.
  intros Hkey Hk Hr. rewrite getProducts_from_sorts by done.
  apply Sorted_StronglySorted; [apply _|].
  apply array_sort_Sorted; intros x y;
    rewrite (products_comparefn_descending key k Hk) by done;
    unfold flip, field_le; [done|apply field_lt_asym].
Qed.

(** [getCollectionProducts] with a recognized key: ascending, with and
    without [reverse]. *)
Lemma getCollectionProducts_from_ascending (l : list Product)
    (collection : string) (reverse : option bool) (key : string)
    (k : ProductKey) :
  isValidProductKey key = true → field_of key = Some k →
  StronglySorted (field_le k)
    (getCollectionProducts_from l collection reverse (Some key)).
Proof.
  intros Hkey Hk. rewrite getCollectionProducts_from_sorts by done.
  apply Sorted_StronglySorted; [apply _|].
  apply array_sort_Sorted; intros x y;
    rewrite (collection_comparefn_ascending key k Hk);
    unfold field_le; [done|apply field_lt_asym].
Qed.

(** C6, the claim refuted: for the handle "unknown-handle", under which
    [getCollection] finds nothing, [getCollectionProducts] returns four
    products. *)
Lemma getCollectionProducts_unknown_handle_not_empty :
  getCollection epoch_clock "unknown-handle" = None
  ∧ length (getCollectionProducts epoch_clock "unknown-handle" None None)
    = 4%nat
  ∧ getCollectionProducts epoch_clock "unknown-handle" None None ≠ [].
Proof.
  split; [|split; [reflexivity|discriminate]].
  apply getCollection_other; [done|]. intros Hin. no_element Hin.
Qed.

(** C6 as amended.  For every collection handle, matching or not,
    [getCollectionProducts] returns the four products of its fixture, in
    an order that depends on [reverse] and [sortKey] only: the result is
    a rearrangement of the fixture, has four elements, and is the same
    for any two handles. *)
Theorem getCollectionProducts_ignores_collection (clock : nat → string)
    (collection collection' : string) (reverse : option bool)
    (sortKey : option string) :
  getCollectionProducts clock collection reverse sortKey
    ≡ₚ collection_fixture clock
  ∧ length (getCollectionProducts clock collection reverse sortKey) = 4%nat
  ∧ getCollectionProducts clock collection reverse sortKey
    = getCollectionProducts clock collection' reverse sortKey.
Proof.
  assert (Hp := getCollectionProducts_from_perm (collection_fixture clock)
                  collection reverse sortKey).
  split; [exact Hp|]. split; [|reflexivity].
  unfold getCollectionProducts. by rewrite Hp.
Qed.

(** C7 (code defect).  With [reverse] true and the sort key "handle",
    [getCollectionProducts] returns its products by ascending handle,
    not descending: the array is reversed and then sorted upwards, and
    the comparator does not look at [reverse].  [getProducts], run on
    the same array with the same arguments, returns them descending. *)
Theorem getCollectionProducts_reverse_ascending (clock : nat → string) :
  let output :=
    getCollectionProducts clock "spring-2020" (Some true) (Some "handle") in
  map p_handle output
  = [ "acme-cup"; "acme-drawstring-bag"; "acme-drawstring-bag";
      "classic-t-shirt" ]
  ∧ StronglySorted (field_le K_handle) output
  ∧ ¬ Sorted (flip (field_le K_handle)) output
  ∧ map p_handle
      (getProducts_from (collection_fixture clock) None (Some true)
                        (Some "handle"))
    = [ "classic-t-shirt"; "acme-drawstring-bag"; "acme-drawstring-bag";
        "acme-cup" ].
Proof.
  cbv zeta. split; [reflexivity|]. split; [|split; [|reflexivity]].
  - apply (getCollectionProducts_from_ascending _ _ _ "handle"); reflexivity.
  - intros H. apply Sorted_inv in H as [_ H]. apply HdRel_inv in H.
    discriminate H.
Qed.

(** The sort step of both listings is stable.  Take the array handed to
    the sort: in [getProducts] the products left by the query filter,
    in [getCollectionProducts] the array after the optional [reverse()].
    For every such array, every sort key naming a field and every
    product [a], the products that hold the same value as [a] at the
    field come out of the sort exactly as they stood in that array, in
    the same order and number. *)
Lemma sort_step_stable (staticProducts : list Product)
    (query : option string) (collection : string) (reverse : option bool)
    (key : string) (k : ProductKey) (a b : Product) :
  field_of key = Some k →
  same_value k a b →
  let filteredProducts := filter_by_query query staticProducts in
  let sortedProducts :=
    getProducts_from staticProducts query reverse (Some key) in
  let collectionInput := reversed_if reverse staticProducts in
  let collectionOutput :=
    getCollectionProducts_from staticProducts collection reverse (Some key) in
  filter (same_value k a) sortedProducts
  = filter (same_value k a) filteredProducts
  ∧ ([a; b] `sublist_of` filteredProducts →
     [a; b] `sublist_of` sortedProducts)
  ∧ filter (same_value k a) collectionOutput
    = filter (same_value k a) collectionInput
  ∧ ([a; b] `sublist_of` collectionInput →
     [a; b] `sublist_of` collectionOutput).
Proof.
  intros Hk Hab. cbv zeta.
  assert (HtieP : ∀ x y, same_value k a x → same_value k a y →
            (products_comparefn key reverse x y >? 0) = false).
  { intros x y Hx Hy.
    rewrite (products_comparefn_tie key k Hk); [done|].
    eapply same_value_trans; [apply same_value_sym|]; eassumption. }
  assert (HtieC : ∀ x y, same_value k a x → same_value k a y →
            (collection_comparefn key x y >? 0) = false).
  { intros x y Hx Hy.
    rewrite (collection_comparefn_tie key k Hk); [done|].
    eapply same_value_trans; [apply same_value_sym|]; eassumption. }
  split; [|split; [|split]].
  - destruct (isKeyOfProduct key) eqn:Hkey.
    + rewrite getProducts_from_sorts by done.
      by apply array_sort_filter.
    + rewrite getProducts_from_unsorted; [done|]. by intros ? [= <-].
  - destruct (isKeyOfProduct key) eqn:Hkey.
    + rewrite getProducts_from_sorts by done.
      apply (array_sort_keeps_order _ (same_value k a));
        [done|apply same_value_refl|done].
    + rewrite getProducts_from_unsorted; [done|]. by intros ? [= <-].
  - destruct (isValidProductKey key) eqn:Hkey.
    + rewrite getCollectionProducts_from_sorts by done.
      by apply array_sort_filter.
    + rewrite getCollectionProducts_from_unsorted; [done|].
      by intros ? [= <-].
  - destruct (isValidProductKey key) eqn:Hkey.
    + rewrite getCollectionProducts_from_sorts by done.
      apply (array_sort_keeps_order _ (same_value k a));
        [done|apply same_value_refl|done].
    + rewrite getCollectionProducts_from_unsorted; [done|].
      by intros ? [= <-].
Qed.

(** Two products that stand one before the other in [l] and pass the
    query filter stand so among the products the filter keeps. *)
Lemma filter_by_query_keeps_order (query : option string)
    (l : list Product) (a b : Product) :
  [a; b] `sublist_of` l →
  a ∈ filter_by_query query l → b ∈ filter_by_query query l →
  [a; b] `sublist_of` filter_by_query query l.
Proof.
  unfold filter_by_query. destruct query as [q|]; [|done].
  destruct (truthy_string (Some q)); [|done].
  set (f := λ product : Product, _ || _).
  intros Hab Ha Hb.
  assert (Hmono : ∀ l1 l2 : list Product,
            l1 `sublist_of` l2 → List.filter f l1 `sublist_of` List.filter f l2).
  { induction 1 as [|x l1 l2 _ IH|x l1 l2 _ IH]; simpl; [constructor| |].
    - destruct (f x); [by constructor|done].
    - destruct (f x); [by constructor|done]. }
  apply list_elem_of_In, filter_In in Ha as [_ Ha].
  apply list_elem_of_In, filter_In in Hb as [_ Hb].
  apply Hmono in Hab. simpl in Hab. by rewrite Ha, Hb in Hab.
Qed.

Lemma sublist_rev {A : Type} (l1 l2 : list A) :
  l1 `sublist_of` l2 → rev l1 `sublist_of` rev l2.
Proof.
  induction 1 as [|x l1 l2 _ IH|x l1 l2 _ IH]; simpl; [constructor| |].
  - by apply sublist_app.
  - by apply sublist_inserts_r.
Qed.

(** C9 (code defect, the one of C7).  [getProducts] is stable against
    its input list for every [reverse]: two products of the input that
    hold the same value at the sort key and are both listed come out in
    the order in which they stood in the input.  [getCollectionProducts]
    is so only when [reverse] is absent or false.  When [reverse] is
    true it reverses the array before it sorts, so two such products
    come out in the opposite order: with the sort key "id", at which
    all four products of its array hold "001", it returns the array
    back to front, and the T-shirt, first in the array, comes after the
    cup, second in the array.  [getProducts], given the same array and
    arguments, returns it as it stood. *)
Theorem getCollectionProducts_reverse_reorders_ties (clock : nat → string) :
  (∀ l query reverse key k a b,
     field_of key = Some k → same_value k a b →
     [a; b] `sublist_of` l →
     a ∈ filter_by_query query l → b ∈ filter_by_query query l →
     [a; b] `sublist_of` getProducts_from l query reverse (Some key))
  ∧ (∀ l collection reverse key k a b,
       truthy_bool reverse = false →
       field_of key = Some k → same_value k a b →
       [a; b] `sublist_of` l →
       [a; b] `sublist_of`
         getCollectionProducts_from l collection reverse (Some key))
  ∧ (∀ l collection key k a b,
       field_of key = Some k → same_value k a b →
       [a; b] `sublist_of` l →
       [b; a] `sublist_of`
         getCollectionProducts_from l collection (Some true) (Some key))
  ∧ (let input := collection_fixture clock in
     let output :=
       getCollectionProducts clock "spring-2020" (Some true) (Some "id") in
     ∃ a b,
       input !! 0%nat = Some a ∧ input !! 1%nat = Some b
       ∧ p_handle a = "classic-t-shirt" ∧ p_handle b = "acme-cup"
       ∧ same_value K_id a b
       ∧ [a; b] `sublist_of` input
       ∧ ¬ [a; b] `sublist_of` output
       ∧ output = rev input
       ∧ output ≠ input
       ∧ map p_handle output
         = [ "acme-drawstring-bag"; "acme-drawstring-bag"; "acme-cup";
             "classic-t-shirt" ]
       ∧ getProducts_from input None (Some true) (Some "id") = input).
Proof.
  split; [|split; [|split]].
  - intros l query reverse key k a b Hk Hab Hl Ha Hb.
    apply (sort_step_stable l query "" reverse key k a b Hk Hab).
    by apply filter_by_query_keeps_order.
  - intros l collection reverse key k a b Hr Hk Hab Hl.
    apply (sort_step_stable l None collection reverse key k a b Hk Hab).
    unfold reversed_if. by rewrite Hr.
  - intros l collection key k a b Hk Hab Hl.
    apply (sort_step_stable l None collection (Some true) key k b a Hk);
      [by apply same_value_sym|].
    apply (sublist_rev [a; b] l Hl).
  - cbv zeta. eexists. eexists.
    split; [reflexivity|]. split; [reflexivity|].
    split; [reflexivity|]. split; [reflexivity|].
    split; [reflexivity|]. split; [by repeat constructor|].
    split; [|split; [reflexivity|split; [|split; reflexivity]]].
    + change (getCollectionProducts clock "spring-2020" (Some true) (Some "id"))
        with (rev (collection_fixture clock)).
      intros H. simpl in H.
      repeat match goal with
             | H : _ `sublist_of` _ |- _ => inversion H; clear H; subst
             end.
    + change (getCollectionProducts clock "spring-2020" (Some true) (Some "id"))
        with (rev (collection_fixture clock)).
      simpl. intros H. discriminate H.
Qed.

Lemma getCollectionProducts_reverse_reorders_ties_witness :
  field_of "id" = Some K_id
  ∧ same_value K_id tshirt cup
  ∧ [tshirt; cup] `sublist_of` [tshirt; cup]
  ∧ [tshirt; cup] `sublist_of`
      getProducts_from [tshirt; cup] None (Some true) (Some "id")
  ∧ [tshirt; cup] `sublist_of`
      getCollectionProducts_from [tshirt; cup] "spring-2020" (Some false)
                                 (Some "id")
  ∧ [cup; tshirt] `sublist_of`
      getCollectionProducts_from [tshirt; cup] "spring-2020" (Some true)
                                 (Some "id").
Proof.
  assert (Hk : field_of "id" = Some K_id) by reflexivity.
  assert (Hab : same_value K_id tshirt cup) by reflexivity.
  assert (Hl : [tshirt; cup] `sublist_of` [tshirt; cup]) by reflexivity.
  destruct (getCollectionProducts_reverse_reorders_ties epoch_clock)
    as (HP & HC & HR & _).
  split; [exact Hk|]. split; [exact Hab|]. split; [exact Hl|].
  split; [|split].
  - apply (HP [tshirt; cup] None (Some true) "id" K_id tshirt cup Hk Hab Hl).
    + apply elem_of_cons. by left.
    + apply elem_of_cons. right. apply elem_of_cons. by left.
  - exact (HC [tshirt; cup] "spring-2020" (Some false) "id" K_id tshirt cup
              eq_refl Hk Hab Hl).
  - exact (HR [tshirt; cup] "spring-2020" "id" K_id tshirt cup Hk Hab Hl).
Defined.

Example getProducts_from_ties_keep_order :
  map p_handle (getProducts_from [tshirt; cup] None (Some true) (Some "id"))
  = [ "classic-t-shirt"; "acme-cup" ]
  ∧ map p_handle (getProducts_from [tshirt; cup] None (Some false) (Some "id"))
    = [ "classic-t-shirt"; "acme-cup" ].
Proof. split; reflexivity. Qed.

(** In [getCollectionProducts] the array is reversed before it is sorted:
    measured against the array before [reverse()], products that hold
    equal values come out in the opposite order when [reverse] is true. *)
Example getCollectionProducts_from_ties_after_reverse :
  map p_handle
    (getCollectionProducts_from [tshirt; cup] "spring-2020" (Some true)
                                (Some "id"))
  = [ "acme-cup"; "classic-t-shirt" ]
  ∧ map p_handle
      (getCollectionProducts_from [tshirt; cup] "spring-2020" (Some false)
                                  (Some "id"))
    = [ "classic-t-shirt"; "acme-cup" ].
Proof. split; reflexivity. Qed.

(** ** The revalidation webhook *)

Lemma revalidate_rejects (env_secret : option string) (date_now : Z)
    (req : NextRequest) (w : World) :
  truthy_string (secret_param req) = false
  ∨ secret_param req ≠ env_secret →
  revalidate env_secret date_now req w
  = (NextResponse_json acknowledged,
     {| invalidated := invalidated w;
        console := console w ++ [ "Invalid revalidation secret." ] |}).
Proof.
  intros H. unfold revalidate.
  assert (negb (truthy_string (secret_param req))
          || negb (bool_decide (secret_param req = env_secret)) = true)
    as ->; [|reflexivity].
  destruct H as [->|H]; [reflexivity|].
  rewrite (bool_decide_eq_false_2 _ H). apply orb_true_r.
Qed.

(** C8.  A request with the topic products/update and the configured
    secret (a non-empty one) invalidates the cache tag "products", and
    only it, and is answered with status 200, [revalidated: true] and the
    time.  The same request with a missing, empty or different secret is
    answered with status 200 and no [revalidated] field, invalidates
    nothing, and logs the rejection. *)
Theorem revalidate_products_update (env_secret : option string)
    (date_now : Z) (secret : option string) (w : World) :
  let req := {| x_shopify_topic := Some "products/update";
                secret_param := secret |} in
  (truthy_string secret = true → secret = env_secret →
   revalidate env_secret date_now req w
   = ({| http_status := 200;
         body := {| status := 200; revalidated := Some true;
                    now := Some date_now |} |},
      {| invalidated := invalidated w ++ [ "products" ];
         console := console w |}))
  ∧ (secret = None ∨ secret = Some "" ∨ secret ≠ env_secret →
     revalidate env_secret date_now req w
     = ({| http_status := 200;
           body := {| status := 200; revalidated := None; now := None |} |},
        {| invalidated := invalidated w;
           console := console w ++ [ "Invalid revalidation secret." ] |})).
Proof.
  cbv zeta. split.
  - intros Ht <-. unfold revalidate. cbn [secret_param x_shopify_topic].
    rewrite Ht, bool_decide_eq_true_2 by done. reflexivity.
  - intros H. apply revalidate_rejects. cbn [secret_param].
    destruct H as [->| [->|H]]; [left|left|right]; done.
Qed.

Lemma revalidate_products_update_witness :
  truthy_string (Some "s3cret") = true
  ∧ revalidate (Some "s3cret") 1700000000000
      {| x_shopify_topic := Some "products/update";
         secret_param := Some "s3cret" |} initial_world
    = ({| http_status := 200;
          body := {| status := 200; revalidated := Some true;
                     now := Some 1700000000000 |} |},
       {| invalidated := [ "products" ]; console := [] |})
  ∧ Some "wrong" ≠ Some "s3cret"
  ∧ revalidate (Some "s3cret") 1700000000000
      {| x_shopify_topic := Some "products/update";
         secret_param := Some "wrong" |} initial_world
    = ({| http_status := 200;
          body := {| status := 200; revalidated := None; now := None |} |},
       {| invalidated := [];
          console := [ "Invalid revalidation secret." ] |}).
Proof.
  split; [reflexivity|]. split.
  - apply (proj1 (revalidate_products_update (Some "s3cret") 1700000000000
                    (Some "s3cret") initial_world)); reflexivity.
  - split; [discriminate|].
    apply (proj2 (revalidate_products_update (Some "s3cret") 1700000000000
                    (Some "wrong") initial_world)).
    right. right. discriminate.
Defined.

Example revalidate_missing_secret :
  revalidate (Some "s3cret") 1700000000000
    {| x_shopify_topic := Some "products/update"; secret_param := None |}
    initial_world
  = (NextResponse_json acknowledged,
     {| invalidated := []; console := [ "Invalid revalidation secret." ] |}).
Proof. reflexivity. Qed.

Example revalidate_collection_topic :
  revalidate (Some "s3cret") 1700000000000
    {| x_shopify_topic := Some "collections/create";
       secret_param := Some "s3cret" |}
    initial_world
  = (NextResponse_json {| status := 200; revalidated := Some true;
                          now := Some 1700000000000 |},
     {| invalidated := [ "collections" ]; console := [] |}).
Proof. reflexivity. Qed.

Example revalidate_other_topic :
  revalidate (Some "s3cret") 1700000000000
    {| x_shopify_topic := Some "orders/create";
       secret_param := Some "s3cret" |}
    initial_world
  = (NextResponse_json acknowledged, initial_world).
Proof. reflexivity. Qed.

(** * Further properties of the module *)

(** ** Carts *)



(** X2.  [getCart] returns a cart exactly when it is given a non-empty
    id, and the cart returned carries that id; without an id, or with
    the empty one, it returns nothing. *)
Theorem getCart_found_iff (cartId : option string) :
  (is_Some (getCart cartId) ↔ ∃ id, cartId = Some id ∧ id ≠ "")
  ∧ (∀ c, getCart cartId = Some c → cartId = Some (cart_id c)).
Proof.
  split; [split|].
  - intros [c Hc]. apply getCart_Some in Hc as (id & ? & ? & _). eauto.
  - intros (id & -> & Hne). rewrite getCart_nonempty by done. eauto.
  - intros c Hc. apply getCart_Some in Hc as (id & -> & _ & <- & _).
    reflexivity.
Qed.

(** ** [reshapeCart] and [reshapeCollections] *)

(** X3.  [reshapeCart] throws exactly when the cart has no cost.  With a
    cost it returns a cart that keeps the id, the checkout url, the
    subtotal, the total and the [totalQuantity] of the upstream cart
    (the total quantity is not recomputed from the lines), whose lines
    are the nodes of the edges in their order, and whose tax amount is
    the upstream one whenever there is one. *)
Theorem reshapeCart_outcome (K : ShopifyCart) :
  ((∃ e, reshapeCart K = Throw e) ↔ s_cost K = None)
  ∧ (∀ c, s_cost K = Some c →
       ∃ r, reshapeCart K = Normal r
            ∧ cart_id r = s_id K
            ∧ checkoutUrl r = s_checkoutUrl K
            ∧ subtotalAmount (cost r) = s_subtotalAmount c
            ∧ totalAmount (cost r) = s_totalAmount c
            ∧ totalQuantity r = s_totalQuantity K
            ∧ lines r = map node (edges (s_lines K))
            ∧ (∀ t, s_totalTaxAmount c = Some t →
                    totalTaxAmount (cost r) = t)).
Proof.
  unfold reshapeCart. destruct (s_cost K) as [c|]; split.
  - split; [intros [e He]; discriminate|discriminate].
  - intros c' [= <-]. eexists. split; [reflexivity|]. simpl.
    repeat split. by intros t ->.
  - split; [done|eauto].
  - discriminate.
Qed.

Lemma reshapeCart_outcome_witness :
  s_cost euro_cart = Some euro_cost
  ∧ ∃ r, reshapeCart euro_cart = Normal r
         ∧ cart_id r = s_id euro_cart
         ∧ checkoutUrl r = s_checkoutUrl euro_cart
         ∧ subtotalAmount (cost r) = s_subtotalAmount euro_cost
         ∧ totalAmount (cost r) = s_totalAmount euro_cost
         ∧ totalQuantity r = s_totalQuantity euro_cart
         ∧ lines r = map node (edges (s_lines euro_cart))
         ∧ (∀ t, s_totalTaxAmount euro_cost = Some t →
                 totalTaxAmount (cost r) = t).
Proof.
  split; [reflexivity|].
  apply (proj2 (reshapeCart_outcome euro_cart) euro_cost). reflexivity.
Defined.

(** X4.  [reshapeCollections] drops the absent entries and keeps the
    others in their order: the handles of the result are the handles of
    the entries present, and every result has the path "/search/"
    followed by its handle. *)
Theorem reshapeCollections_keeps_present
    (l : list (option ShopifyCollection)) :
  map handle (reshapeCollections l) = map sc_handle (omap id l)
  ∧ map path (reshapeCollections l)
    = map (λ c, "/search/" +:+ sc_handle c) (omap id l)
  ∧ (length (reshapeCollections l) ≤ length l)%nat.
Proof.
  induction l as [|[c|] l (IH1 & IH2 & IH3)]; simpl.
  - repeat split; lia.
  - rewrite IH1, IH2. repeat split. lia.
  - repeat split; [done|done|lia].
Qed.

(** ** Strings *)

Lemma str_app_cons (c : ascii) (a b : string) :
  String c a +:+ b = String c (a +:+ b).
Proof. reflexivity. Qed.

Lemma str_app_nil_r (s : string) : s +:+ "" = s.
Proof. induction s as [|c s IH]; [done|]. by rewrite str_app_cons, IH. Qed.

Lemma str_app_assoc (a b c : string) : (a +:+ b) +:+ c = a +:+ b +:+ c.
Proof. induction a as [|x a IH]; [done|]. by rewrite !str_app_cons, IH. Qed.

Lemma has_char_app (c : ascii) (a b : string) :
  has_char c (a +:+ b) = has_char c a || has_char c b.
Proof.
  induction a as [|x a IH]; [done|].
  rewrite str_app_cons. cbn [has_char]. by rewrite IH, orb_assoc.
Qed.

Lemma has_char_dot_on_line (s : string) :
  has_char "." s = false → dot_on_line s = false.
Proof.
  induction s as [|c s IH]; [done|]. cbn [has_char dot_on_line].
  intros [-> H]%orb_false_elim. rewrite IH by done.
  by destruct (is_line_terminator c).
Qed.

(** ** [reshapeImages]: alt texts and filenames *)

Lemma derived_altText_truthy (productTitle filename : string) :
  truthy_string (Some (productTitle +:+ " - " +:+ filename)) = true.
Proof. by destruct productTitle. Qed.

Lemma reshapeImages_altText_truthy (images : Connection Image)
    (productTitle : string) :
  Forall (λ image, truthy_string (altText image) = true)
         (reshapeImages images productTitle).
Proof.
  unfold reshapeImages, removeEdgesAndNodes.
  induction (edges images) as [|e es IH]; simpl; constructor; [|done].
  simpl. destruct (truthy_string (altText (node e))) eqn:Halt; [done|].
  apply derived_altText_truthy.
Qed.

(** X5.  [reshapeImages] returns one image for each edge, in the order
    of the edges and with the urls and sizes of their nodes, and every
    image returned has a non-empty alt text, whatever the images and
    the product title are: an alt text that is present and non-empty is
    kept; otherwise the alt text is derived, the product title, then
    the separator " - ", then the file name found in the url (or
    "undefined"), so that it always holds the separator. *)
Theorem reshapeImages_altText_never_empty (images : Connection Image)
    (productTitle : string) :
  map url (reshapeImages images productTitle)
  = map (λ edge, url (node edge)) (edges images)
  ∧ Forall (λ image, truthy_string (altText image) = true)
           (reshapeImages images productTitle)
  ∧ Forall2
      (λ edge image,
         url image = url (node edge)
         ∧ width image = width (node edge)
         ∧ height image = height (node edge)
         ∧ (truthy_string (altText (node edge)) = true →
            altText image = altText (node edge))
         ∧ (truthy_string (altText (node edge)) = false →
            altText image
            = Some (productTitle +:+ " - "
                    +:+ template (match_filename (url (node edge))))
            ∧ ∃ text, altText image = Some text ∧ contains text " - "))
      (edges images) (reshapeImages images productTitle).
Proof.
  split; [|split; [apply reshapeImages_altText_truthy|]].
  { unfold reshapeImages, removeEdgesAndNodes. by rewrite !map_map. }
  unfold reshapeImages, removeEdgesAndNodes.
  induction (edges images) as [|e es IH]; cbn [map]; constructor; [|done].
  cbn [url width height altText].
  split; [reflexivity|]. split; [reflexivity|]. split; [reflexivity|].
  destruct (truthy_string (altText (node e))); split; try done.
  intros _. split; [reflexivity|].
  eexists. split; [reflexivity|].
  by exists productTitle, (template (match_filename (url (node e)))).
Qed.

Lemma match_filename_here (s group1 : string) :
  match_here s = Some group1 → match_filename s = Some group1.
Proof. intros H. destruct s; cbn [match_filename]; by rewrite H. Qed.

(** The captured run and the dot: the run ends at the last dot. *)
Lemma group_then_dot_last (name ext consumed : string) :
  single_line name = true → has_char "." ext = false →
  dot_star (λ group1, lit "." (dot_star (λ _ _, Some group1) ""))
           consumed (name +:+ String "." ext)
  = Some (consumed +:+ name).
Proof.
  intros Hname Hext. revert consumed Hname.
  induction name as [|c name IH]; intros consumed Hname.
  - change ("" +:+ String "." ext) with (String "." ext).
    cbn [dot_star]. change (is_line_terminator ".") with false. cbn iota.
    rewrite group_then_dot_fails by (by apply has_char_dot_on_line).
    rewrite lit_cons. change (Ascii.eqb "." ".") with true. cbn iota.
    by rewrite dot_star_accepts, str_app_nil_r.
  - cbn [single_line] in Hname.
    apply andb_true_iff in Hname as [Hc%negb_true_iff Hname].
    rewrite str_app_cons. cbn [dot_star]. rewrite Hc, IH by done.
    by rewrite str_app_assoc.
Qed.

(** The leading run and the slash: the run ends at the last slash. *)
Lemma run_then_slash_last {R : Type} (inner : string → option R)
    (pre rest consumed : string) (r : R) :
  single_line pre = true → has_char "/" rest = false →
  inner rest = Some r →
  dot_star (λ _, lit "/" inner) consumed (pre +:+ String "/" rest) = Some r.
Proof.
  intros Hpre Hrest Hr. revert consumed Hpre.
  induction pre as [|c pre IH]; intros consumed Hpre.
  - change ("" +:+ String "/" rest) with (String "/" rest).
    cbn [dot_star]. change (is_line_terminator "/") with false. cbn iota.
    rewrite (dot_star_lit_absent "/" (λ _, inner)) by done.
    rewrite lit_cons. by change (Ascii.eqb "/" "/") with true.
  - cbn [single_line] in Hpre.
    apply andb_true_iff in Hpre as [Hc%negb_true_iff Hpre].
    rewrite str_app_cons. cbn [dot_star]. by rewrite Hc, IH.
Qed.

(** X6.  For a url made of a leading part, a slash, a name, a dot and an
    extension, where the leading part and the name hold no line
    terminator, the name and the extension hold no slash and the
    extension holds no dot, the filename that [reshapeImages] extracts
    is the name: the text between the last slash and the last dot. *)
Theorem match_filename_name (pre name ext : string) :
  single_line pre = true →
  single_line name = true →
  has_char "/" name = false →
  has_char "/" ext = false →
  has_char "." ext = false →
  match_filename (pre +:+ "/" +:+ name +:+ "." +:+ ext) = Some name.
Proof.
  intros Hpre Hname Hslash Hslash' Hdot.
  apply match_filename_here. unfold match_here.
  change ("/" +:+ name +:+ "." +:+ ext)
    with (String "/" (name +:+ String "." ext)).
  apply run_then_slash_last; [done| |].
  - rewrite has_char_app. cbn [has_char]. by rewrite Hslash, Hslash'.
  - by rewrite group_then_dot_last.
Qed.

Lemma match_filename_name_witness :
  single_line "https://cdn.shop/a.b" = true
  ∧ single_line "c.d" = true
  ∧ has_char "/" "c.d" = false
  ∧ has_char "/" "png?v=1" = false
  ∧ has_char "." "png?v=1" = false
  ∧ match_filename
      ("https://cdn.shop/a.b" +:+ "/" +:+ "c.d" +:+ "." +:+ "png?v=1")
    = Some "c.d".
Proof.
  repeat (split; [reflexivity|]).
  apply (match_filename_name "https://cdn.shop/a.b" "c.d" "png?v=1");
    reflexivity.
Defined.

(** X7.  The filename pattern of [reshapeImages] matches a url exactly
    when some slash of the url has a dot after it on the same line;
    otherwise no filename is extracted. *)
Theorem match_filename_matches_iff (url : string) :
  is_Some (match_filename url) ↔ slash_then_dot url = true.
Proof.
  rewrite <- not_eq_None_Some, match_filename_None.
  destruct (slash_then_dot url); split; congruence.
Qed.

(** ** [reshapeProduct] and [reshapeProducts] *)

Section HiddenTagFacts.
Context (HIDDEN_PRODUCT_TAG : string).

(** X8.  [reshapeProduct] returns nothing for a product exactly when the
    hidden products are filtered (the flag is omitted or true) and the
    tags of the product hold the hidden tag; with the flag false every
    product is returned.  A product returned keeps its handle, title and
    tags. *)
Theorem reshapeProduct_hidden (product : ShopifyProduct)
    (filterHiddenProducts : option bool) :
  (reshapeProduct HIDDEN_PRODUCT_TAG (Some product) filterHiddenProducts = None
   ↔ filterHiddenProducts ≠ Some false
     ∧ HIDDEN_PRODUCT_TAG ∈ sp_tags product)
  ∧ is_Some (reshapeProduct HIDDEN_PRODUCT_TAG (Some product) (Some false))
  ∧ (∀ r, reshapeProduct HIDDEN_PRODUCT_TAG (Some product)
            filterHiddenProducts = Some r →
          p_handle r = sp_handle product
          ∧ p_title r = sp_title product
          ∧ p_tags r = sp_tags product).
Proof.
  unfold reshapeProduct. split; [|split].
  - destruct (default true filterHiddenProducts && _) eqn:E.
    + split; [intros _|done].
      apply andb_true_iff in E as [Hf Hin%bool_decide_eq_true].
      split; [|done]. intros ->. discriminate Hf.
    + split; [discriminate|]. intros [Hf Hin].
      apply andb_false_iff in E as [E|E%bool_decide_eq_false]; [|done].
      by destruct filterHiddenProducts as [[|]|].
  - simpl. eauto.
  - intros r Hr.
    destruct (default true filterHiddenProducts && _); [done|].
    by injection Hr as <-.
Qed.

Lemma reshapeProducts_cons_Some (product : ShopifyProduct)
    (rest : list (option ShopifyProduct)) :
  reshapeProducts HIDDEN_PRODUCT_TAG (Some product :: rest)
  = match reshapeProduct HIDDEN_PRODUCT_TAG (Some product) None with
    | Some r => r :: reshapeProducts HIDDEN_PRODUCT_TAG rest
    | None => reshapeProducts HIDDEN_PRODUCT_TAG rest
    end.
Proof. reflexivity. Qed.

(** X9.  [reshapeProducts] drops the absent entries and the products
    that carry the hidden tag, and keeps the others in their order: the
    handles of the result are the handles of the visible entries; no
    product of the result carries the hidden tag, and every image of
    every product of the result has a non-empty alt text. *)
Theorem reshapeProducts_visible (products : list (option ShopifyProduct)) :
  map p_handle (reshapeProducts HIDDEN_PRODUCT_TAG products)
  = map sp_handle
      (filter (λ p, HIDDEN_PRODUCT_TAG ∉ sp_tags p) (omap id products))
  ∧ Forall (λ r, (HIDDEN_PRODUCT_TAG ∉ p_tags r)
                 ∧ Forall (λ image, truthy_string (altText image) = true)
                          (p_images r))
           (reshapeProducts HIDDEN_PRODUCT_TAG products).
Proof.
  induction products as [|[product|] products [IH1 IH2]].
  - split; [reflexivity|constructor].
  - rewrite reshapeProducts_cons_Some. cbn [omap list_omap id].
    rewrite filter_cons. unfold reshapeProduct. cbn [default andb].
    destruct (bool_decide_reflect
                (HIDDEN_PRODUCT_TAG ∈ sp_tags product)) as [Hin|Hin].
    + rewrite decide_False by (intros H; by apply H). by split.
    + rewrite decide_True by done. split; [simpl; by rewrite IH1|].
      constructor; [|done]. split; [done|].
      apply reshapeImages_altText_truthy.
  - by split.
Qed.

End HiddenTagFacts.

(** ** Prefixes, occurrences and replacement *)

Lemma strip_prefix_app (pat rest : string) :
  strip_prefix pat (pat +:+ rest) = Some rest.
Proof.
  induction pat as [|c pat IH]; [by destruct rest|].
  rewrite str_app_cons. cbn [strip_prefix]. by rewrite Ascii.eqb_refl.
Qed.

Lemma strip_prefix_Some (pat s rest : string) :
  strip_prefix pat s = Some rest → s = pat +:+ rest.
Proof.
  revert s. induction pat as [|c pat IH]; intros s.
  - destruct s; cbn [strip_prefix]; by intros [= <-].
  - destruct s as [|b s]; cbn [strip_prefix]; [done|].
    destruct (Ascii.eqb_spec c b) as [<-|]; [|done].
    intros H%IH. by rewrite str_app_cons, <- H.
Qed.

Lemma prefix_strip_prefix (pat s : string) :
  String.prefix pat s = true ↔ is_Some (strip_prefix pat s).
Proof.
  revert s. induction pat as [|c pat IH]; intros s.
  - destruct s; cbn [String.prefix strip_prefix]; split; eauto.
  - destruct s as [|b s]; cbn [String.prefix strip_prefix].
    + split; [done|by intros [? ?]].
    + destruct (ascii_dec c b) as [<-|Hne].
      * by rewrite Ascii.eqb_refl.
      * apply Ascii.eqb_neq in Hne as ->. split; [done|by intros [? ?]].
Qed.

Lemma prefix_false_strip_prefix (pat s : string) :
  String.prefix pat s = false → strip_prefix pat s = None.
Proof.
  intros H. destruct (strip_prefix pat s) as [rest|] eqn:E; [|done].
  assert (String.prefix pat s = true) by (apply prefix_strip_prefix; eauto).
  congruence.
Qed.

Lemma prefix_iff (pat s : string) :
  String.prefix pat s = true ↔ ∃ rest, s = pat +:+ rest.
Proof.
  rewrite prefix_strip_prefix. split.
  - intros [rest H]. exists rest. by apply strip_prefix_Some.
  - intros [rest ->]. rewrite strip_prefix_app. eauto.
Qed.

Lemma includes_cons (c : ascii) (s sub : string) :
  includes (String c s) sub = String.prefix sub (String c s) || includes s sub.
Proof. reflexivity. Qed.

(** [includes] finds exactly the occurrences. *)
Lemma includes_contains (s sub : string) :
  includes s sub = true ↔ contains s sub.
Proof.
  unfold contains. induction s as [|c s IH].
  - cbn [includes]. rewrite orb_false_r, prefix_iff. split.
    + intros [rest H]. exists "", rest. done.
    + intros ([|? ?] & post & H); [eauto|discriminate].
  - rewrite includes_cons, orb_true_iff, prefix_iff, IH. split.
    + intros [[rest H]|(pre & post & H)].
      * exists "", rest. done.
      * exists (String c pre), post. by rewrite str_app_cons, <- H.
    + intros ([|x pre] & post & H).
      * left. eauto.
      * right. rewrite str_app_cons in H. injection H as _ H. eauto.
Qed.

Lemma replace_first_unfold (s pat rep : string) :
  replace_first s pat rep
  = match strip_prefix pat s with
    | Some rest => rep +:+ rest
    | None =>
        match s with
        | EmptyString => EmptyString
        | String c s' => String c (replace_first s' pat rep)
        end
    end.
Proof. by destruct s. Qed.

(** The first occurrence is the one at the head, when there is one. *)
Lemma replace_first_head (pat rep rest : string) :
  replace_first (pat +:+ rest) pat rep = rep +:+ rest.
Proof. by rewrite replace_first_unfold, strip_prefix_app. Qed.

Lemma replace_first_empty (s rep : string) :
  replace_first s "" rep = rep +:+ s.
Proof. rewrite replace_first_unfold. by destruct s. Qed.

(** Without an occurrence the string is returned as it is. *)
Lemma replace_first_absent (s pat rep : string) :
  includes s pat = false → replace_first s pat rep = s.
Proof.
  induction s as [|c s IH]; rewrite replace_first_unfold.
  - cbn [includes]. rewrite orb_false_r.
    by intros ->%prefix_false_strip_prefix.
  - rewrite includes_cons.
    intros [->%prefix_false_strip_prefix H]%orb_false_elim. by rewrite IH.
Qed.

Lemma contains_prefix (s a b : string) :
  String.prefix a b = true → contains s b → contains s a.
Proof.
  intros [rest ->]%prefix_iff (pre & post & ->).
  exists pre, (rest +:+ post). by rewrite str_app_assoc.
Qed.

Lemma includes_prefix_absent (s a b : string) :
  String.prefix a b = true → includes s a = false → includes s b = false.
Proof.
  intros Hab Ha. destruct (includes s b) eqn:Hb; [|done].
  apply includes_contains, (contains_prefix s a b Hab),
    includes_contains in Hb. congruence.
Qed.

(** ** Menus *)

(** X10.  The rewriting of a menu path takes the store domain off a path
    that starts with it, whatever the domain is; it then turns a leading
    "/collections" into "/search" (when no "/pages" follows, which would
    be taken out) and takes a leading "/pages" out (when no
    "/collections" follows, which would be turned into "/search"
    first). *)
Theorem rewrite_menu_path_sections (domain rest : string) :
  (∀ path, rewrite_menu_path domain (domain +:+ path)
           = rewrite_menu_path "" path)
  ∧ (includes rest "/pages" = false →
     rewrite_menu_path domain (domain +:+ "/collections" +:+ rest)
     = "/search" +:+ rest)
  ∧ (includes rest "/collections" = false →
     rewrite_menu_path domain (domain +:+ "/pages" +:+ rest) = rest).
Proof.
  assert (Hstrip : ∀ path, rewrite_menu_path domain (domain +:+ path)
                           = rewrite_menu_path "" path).
  { intros path. unfold rewrite_menu_path.
    by rewrite replace_first_head, replace_first_empty. }
  split; [exact Hstrip|]. split; intros Hrest; rewrite Hstrip;
    unfold rewrite_menu_path; rewrite replace_first_empty;
    match goal with |- context [ "" +:+ ?x ] => change ("" +:+ x) with x end.
  - rewrite (replace_first_head "/collections" "/search" rest).
    apply replace_first_absent.
    change ("/search" +:+ rest)
      with (String "/" (String "s" (String "e" (String "a" (String "r"
             (String "c" (String "h" rest))))))).
    rewrite !includes_cons, Hrest.
    by destruct rest as [|x rest'].
  - rewrite (replace_first_absent ("/pages" +:+ rest) "/collections").
    + apply (replace_first_head "/pages" "" rest).
    + change ("/pages" +:+ rest)
        with (String "/" (String "p" (String "a" (String "g" (String "e"
               (String "s" rest)))))).
      rewrite !includes_cons, Hrest.
      by destruct rest as [|x rest'].
Qed.

Lemma rewrite_menu_path_sections_witness :
  includes "/summer" "/pages" = false
  ∧ rewrite_menu_path "https://shop.example"
      ("https://shop.example" +:+ "/collections" +:+ "/summer")
    = "/search" +:+ "/summer"
  ∧ includes "/about" "/collections" = false
  ∧ rewrite_menu_path "https://shop.example"
      ("https://shop.example" +:+ "/pages" +:+ "/about")
    = "/about".
Proof.
  split; [reflexivity|]. split.
  - apply (proj1 (proj2 (rewrite_menu_path_sections
                           "https://shop.example" "/summer"))).
    reflexivity.
  - split; [reflexivity|].
    apply (proj2 (proj2 (rewrite_menu_path_sections
                           "https://shop.example" "/about"))).
    reflexivity.
Defined.

(** X11.  [getMenu] returns the empty list exactly for the handles that
    are neither one of the two menus it knows,
    "next-js-frontend-footer-menu" and "next-js-frontend-header-menu",
    nor a name every object inherits, such as "constructor"; for such an
    inherited name it throws a [TypeError], and it throws for no other
    handle. *)
Theorem getMenu_empty_iff (domain handle : string) :
  (getMenu domain handle = Normal []
   ↔ handle ≠ "next-js-frontend-footer-menu"
     ∧ handle ≠ "next-js-frontend-header-menu"
     ∧ (handle ∉ object_prototype_names))
  ∧ (handle ∈ object_prototype_names →
     getMenu domain handle
     = Throw (TypeError "menus[handle]?.map is not a function"))
  ∧ (∀ e, getMenu domain handle = Throw e → handle ∈ object_prototype_names).
Proof.
  unfold getMenu.
  destruct (decide (handle = "next-js-frontend-footer-menu")) as [->|Hf].
  { rewrite (get_property_own _ _ _ (lookup_insert_eq _ _ _)).
    split; [split; [discriminate|by intros [? _]]|].
    split; [intros Hin; no_element Hin|discriminate]. }
  destruct (decide (handle = "next-js-frontend-header-menu")) as [->|Hh].
  { erewrite get_property_own;
      [|by rewrite lookup_insert_ne, lookup_singleton_eq].
    split; [split; [discriminate|by intros (_ & ? & _)]|].
    split; [intros Hin; no_element Hin|discriminate]. }
  assert (Hnone : ({[ "next-js-frontend-footer-menu" :=
                        [ {| menu_title := "Home"; menu_path := "/" |};
                          {| menu_title := "About Us"; menu_path := "/about" |};
                          {| menu_title := "Contact";
                             menu_path := "/contact" |} ];
                      "next-js-frontend-header-menu" :=
                        [ {| menu_title := "All"; menu_path := "/search" |} ] ]}
                   : gmap string (list Menu)) !! handle = None).
  { rewrite lookup_insert_ne by done. by apply lookup_singleton_ne. }
  destruct (decide (handle ∈ object_prototype_names)) as [Hin|Hout].
  - rewrite (get_property_inherited _ _ Hnone Hin).
    split; [split; [discriminate|by intros (_ & _ & ?)]|done].
  - rewrite (get_property_undefined _ _ Hnone Hout).
    split; [done|]. split; [done|discriminate].
Qed.

Lemma rewrite_menu_path_fixed (domain path : string) :
  domain = "" ∨ String.prefix "https://" domain = true →
  includes path "https://" = false →
  includes path "/collections" = false →
  includes path "/pages" = false →
  rewrite_menu_path domain path = path.
Proof.
  intros Hd Hhttps Hc Hp. unfold rewrite_menu_path.
  assert (replace_first path domain "" = path) as ->.
  { destruct Hd as [->|Hd]; [by rewrite replace_first_empty|].
    apply replace_first_absent.
    by apply (includes_prefix_absent path "https://" domain). }
  by rewrite (replace_first_absent path "/collections"), replace_first_absent.
Qed.

(** X12.  When the store domain is empty or starts with "https://", the
    rewriting leaves the paths of the two menus as they are written:
    "/", "/about" and "/contact" for the footer menu, "/search" for the
    header menu. *)
Theorem getMenu_paths (domain : string) :
  domain = "" ∨ String.prefix "https://" domain = true →
  getMenu domain "next-js-frontend-footer-menu"
  = Normal [ {| menu_title := "Home"; menu_path := "/" |};
             {| menu_title := "About Us"; menu_path := "/about" |};
             {| menu_title := "Contact"; menu_path := "/contact" |} ]
  ∧ getMenu domain "next-js-frontend-header-menu"
    = Normal [ {| menu_title := "All"; menu_path := "/search" |} ].
Proof.
  intros Hd. unfold getMenu.
  rewrite (get_property_own _ _ _ (lookup_insert_eq _ _ _)).
  erewrite (get_property_own _ "next-js-frontend-header-menu");
    [|by rewrite lookup_insert_ne, lookup_singleton_eq].
  cbn [map menu_title menu_path].
  by rewrite !(rewrite_menu_path_fixed domain) by done.
Qed.

Lemma getMenu_paths_witness :
  ("https://shop.example" = ""
   ∨ String.prefix "https://" "https://shop.example" = true)
  ∧ getMenu "https://shop.example" "next-js-frontend-footer-menu"
    = Normal [ {| menu_title := "Home"; menu_path := "/" |};
               {| menu_title := "About Us"; menu_path := "/about" |};
               {| menu_title := "Contact"; menu_path := "/contact" |} ]
  ∧ getMenu "https://shop.example" "next-js-frontend-header-menu"
    = Normal [ {| menu_title := "All"; menu_path := "/search" |} ].
Proof.
  split; [right; reflexivity|].
  apply (getMenu_paths "https://shop.example"). right. reflexivity.
Defined.

(** ** Pages, products and recommendations *)

Lemma getPage_missing (clock : nat → string) (handle : string) :
  handle ≠ "about" → handle ≠ "contact" →
  handle ∉ object_prototype_names →
  getPage clock handle
  = Thrown ("Page with handle '" +:+ handle +:+ "' not found.").
Proof.
  intros Ha Hc Hout. unfold getPage.
  rewrite get_property_undefined; [done| |done].
  rewrite lookup_insert_ne by done. by apply lookup_singleton_ne.
Qed.

Lemma getPage_found (clock : nat → string) (handle : string) :
  handle = "about" ∨ handle = "contact" →
  ∃ page, getPage clock handle = Returned (Own page)
          ∧ pg_handle page = handle.
Proof.
  unfold getPage. intros [->| ->].
  - rewrite (get_property_own _ _ _ (lookup_insert_eq _ _ _)). eauto.
  - erewrite get_property_own;
      [|by rewrite lookup_insert_ne, lookup_singleton_eq].
    eauto.
Qed.

Lemma getPage_inherited (clock : nat → string) (handle : string) :
  handle ∈ object_prototype_names →
  getPage clock handle = Returned (Inherited handle).
Proof.
  intros Hin. unfold getPage.
  rewrite get_property_inherited; [done| |done].
  rewrite lookup_insert_ne by (intros <-; no_element Hin).
  apply lookup_singleton_ne. intros <-. no_element Hin.
Qed.

(** X13.  [getPage] returns a page only for the handles "about" and
    "contact", and the page returned has the handle it was asked for.
    For a name every object inherits, such as "constructor", it returns
    the inherited value, which is no page, and does not throw.  For
    every other handle it throws an error whose message names the
    handle; it throws for no handle but these. *)
Theorem getPage_outcome (clock : nat → string) (handle : string) :
  (∀ page, getPage clock handle = Returned (Own page) →
           pg_handle page = handle
           ∧ (handle = "about" ∨ handle = "contact"))
  ∧ (handle = "about" ∨ handle = "contact" →
     ∃ page, getPage clock handle = Returned (Own page))
  ∧ (handle ∈ object_prototype_names →
     getPage clock handle = Returned (Inherited handle))
  ∧ (handle ≠ "about" → handle ≠ "contact" →
     handle ∉ object_prototype_names →
     getPage clock handle
     = Thrown ("Page with handle '" +:+ handle +:+ "' not found."))
  ∧ (∀ message, getPage clock handle = Thrown message →
       handle ≠ "about" ∧ handle ≠ "contact"
       ∧ (handle ∉ object_prototype_names)).
Proof.
  split; [|split; [|split; [|split]]].
  - intros page Hpage.
    destruct (decide (handle = "about")) as [Ha|Ha];
      [|destruct (decide (handle = "contact")) as [Hc|Hc]].
    + destruct (getPage_found clock handle) as (page' & H & <-); [by left|].
      split; [congruence|by left].
    + destruct (getPage_found clock handle) as (page' & H & <-); [by right|].
      split; [congruence|by right].
    + destruct (decide (handle ∈ object_prototype_names)) as [Hin|Hout].
      * rewrite getPage_inherited in Hpage by done. discriminate.
      * rewrite getPage_missing in Hpage by done. discriminate.
  - intros H. destruct (getPage_found clock handle H) as (page & ? & _).
    eauto.
  - apply getPage_inherited.
  - apply getPage_missing.
  - intros message H.
    split; [|split].
    + intros Ha. destruct (getPage_found clock handle) as (page & H' & _);
        [by left|congruence].
    + intros Hc. destruct (getPage_found clock handle) as (page & H' & _);
        [by right|congruence].
    + intros Hin. rewrite getPage_inherited in H by done. discriminate.
Qed.

Lemma getPage_outcome_witness :
  "about-us" ≠ "about"
  ∧ "about-us" ≠ "contact"
  ∧ ("about-us" ∉ object_prototype_names)
  ∧ getPage epoch_clock "about-us"
    = Thrown ("Page with handle '" +:+ "about-us" +:+ "' not found.")
  ∧ ("contact" = "about" ∨ "contact" = "contact")
  ∧ (∃ page, getPage epoch_clock "contact" = Returned (Own page))
  ∧ "constructor" ∈ object_prototype_names
  ∧ getPage epoch_clock "constructor" = Returned (Inherited "constructor").
Proof.
  assert (Hout : "about-us" ∉ object_prototype_names).
  { intros H. no_element H. }
  assert (Hin : "constructor" ∈ object_prototype_names).
  { apply elem_of_cons. by left. }
  split; [discriminate|]. split; [discriminate|]. split; [exact Hout|].
  split; [|split; [right; reflexivity|split; [|split; [exact Hin|]]]].
  - apply (proj1 (proj2 (proj2 (proj2
             (getPage_outcome epoch_clock "about-us")))));
      [discriminate|discriminate|exact Hout].
  - apply (proj1 (proj2 (getPage_outcome epoch_clock "contact"))).
    right. reflexivity.
  - apply (proj1 (proj2 (proj2 (getPage_outcome epoch_clock "constructor")))).
    exact Hin.
Defined.

(** Of the pages that [getPages] lists, "about-us", "contact" and
    "services", only "contact" can be fetched by [getPage]. *)
Example getPages_fetched (clock : nat → string) :
  map (λ page, match getPage clock (pg_handle page) with
               | Returned _ => true
               | Thrown _ => false
               end)
      (getPages clock)
  = [ false; true; false ].
Proof.
  cbn [getPages map pg_handle].
  rewrite (getPage_missing clock "about-us");
    [|done|done|intros H; no_element H].
  rewrite (getPage_missing clock "services");
    [|done|done|intros H; no_element H].
  destruct (getPage_found clock "contact") as (page & -> & _); auto.
Qed.

Lemma getProduct_Some (clock : nat → string) (handle : string)
    (product : Product) :
  getProduct clock handle = Some (Own product) →
  p_handle product = handle
  ∧ handle ∈ [ "classic-t-shirt"; "acme-cup"; "acme-drawstring-bag" ].
Proof.
  unfold getProduct. rewrite get_property_Own.
  destruct (decide (handle = "classic-t-shirt")) as [->|H1].
  { rewrite lookup_insert_eq. intros [= <-]. split; [done|set_solver]. }
  rewrite lookup_insert_ne by done.
  destruct (decide (handle = "acme-cup")) as [->|H2].
  { rewrite lookup_insert_eq. intros [= <-]. split; [done|set_solver]. }
  rewrite lookup_insert_ne by done.
  destruct (decide (handle = "acme-drawstring-bag")) as [->|H3].
  { rewrite lookup_singleton_eq. intros [= <-]. split; [done|set_solver]. }
  by rewrite lookup_singleton_ne.
Qed.

Lemma getProduct_known (clock : nat → string) (handle : string) :
  handle ∈ [ "classic-t-shirt"; "acme-cup"; "acme-drawstring-bag" ] →
  ∃ product, getProduct clock handle = Some (Own product).
Proof.
  intros H. unfold getProduct.
  repeat (apply elem_of_cons in H as [->|H]); [| | |inversion H];
    eexists; apply get_property_own.
  - by rewrite lookup_insert_eq.
  - rewrite lookup_insert_ne by done. by rewrite lookup_insert_eq.
  - rewrite !lookup_insert_ne by done. by rewrite lookup_singleton_eq.
Qed.

Lemma getProduct_other (clock : nat → string) (handle : string) :
  handle ∉ [ "classic-t-shirt"; "acme-cup"; "acme-drawstring-bag" ] →
  getProduct clock handle
  = if bool_decide (handle ∈ object_prototype_names)
    then Some (Inherited handle) else None.
Proof.
  intros H. unfold getProduct, get_property.
  rewrite !lookup_insert_ne, lookup_singleton_ne; [done|..];
    intros <-; apply H; set_solver.
Qed.

(** X14.  [getProduct] finds a product exactly under the handles
    "classic-t-shirt", "acme-cup" and "acme-drawstring-bag", and the
    product found has the handle it was looked up by.  Under a name
    every object inherits, such as "constructor", it returns the
    inherited value, which is no product; it finds nothing, that is
    returns [undefined], exactly under the handles that are neither of
    the three nor inherited names. *)
Theorem getProduct_by_handle (clock : nat → string) (handle : string) :
  (∀ product, getProduct clock handle = Some (Own product) →
              p_handle product = handle)
  ∧ ((∃ product, getProduct clock handle = Some (Own product))
     ↔ handle ∈ [ "classic-t-shirt"; "acme-cup"; "acme-drawstring-bag" ])
  ∧ (getProduct clock handle = Some (Inherited handle)
     ↔ handle ∈ object_prototype_names)
  ∧ (getProduct clock handle = None
     ↔ (handle ∉ [ "classic-t-shirt"; "acme-cup"; "acme-drawstring-bag" ])
       ∧ (handle ∉ object_prototype_names)).
Proof.
  assert (Hdisjoint :
    handle ∈ [ "classic-t-shirt"; "acme-cup"; "acme-drawstring-bag" ] →
    handle ∈ object_prototype_names → False).
  { intros H Hin.
    repeat (apply elem_of_cons in H as [->|H]); [| | |inversion H];
      no_element Hin. }
  split; [|split; [|split]].
  - intros product H. by apply getProduct_Some in H as [? _].
  - split; [|apply getProduct_known].
    intros [product H]. by apply getProduct_Some in H as [_ ?].
  - destruct (decide (handle ∈ [ "classic-t-shirt"; "acme-cup";
                                 "acme-drawstring-bag" ])) as [Hk|Hk].
    + destruct (getProduct_known clock handle Hk) as [product ->].
      split; [discriminate|]. intros Hin. destruct (Hdisjoint Hk Hin).
    + rewrite (getProduct_other clock handle Hk).
      destruct (decide (handle ∈ object_prototype_names)) as [Hin|Hout].
      * by rewrite bool_decide_eq_true_2.
      * rewrite bool_decide_eq_false_2 by done. split; [discriminate|done].
  - destruct (decide (handle ∈ [ "classic-t-shirt"; "acme-cup";
                                 "acme-drawstring-bag" ])) as [Hk|Hk].
    + destruct (getProduct_known clock handle Hk) as [product ->].
      split; [discriminate|]. by intros [? _].
    + rewrite (getProduct_other clock handle Hk).
      destruct (decide (handle ∈ object_prototype_names)) as [Hin|Hout].
      * rewrite bool_decide_eq_true_2 by done.
        split; [discriminate|]. by intros [_ ?].
      * by rewrite bool_decide_eq_false_2.
Qed.

(** X15.  [getProductRecommendations] returns the empty list for every
    product id that is neither "001" nor a name every object inherits;
    for such an inherited name, for instance "constructor", the
    fallback to the empty list is not taken and the inherited value is
    returned, which is no list of products.  In a list it returns, a
    product is never recommended for itself, and no recommended product
    can be fetched by [getProduct] under its handle. *)
Theorem getProductRecommendations_outcome (clock clock' : nat → string)
    (productId : string) :
  (productId ≠ "001" → productId ∉ object_prototype_names →
   getProductRecommendations clock productId = Own [])
  ∧ (productId ∈ object_prototype_names →
     getProductRecommendations clock productId = Inherited productId)
  ∧ (∃ products, getProductRecommendations clock "001" = Own products
                 ∧ map p_handle products = [ "vintage-hoodie" ])
  ∧ (∀ products,
       getProductRecommendations clock productId = Own products →
       Forall (λ product, p_id product ≠ productId
                          ∧ getProduct clock' (p_handle product) = None)
              products).
Proof.
  assert (Hhoodie : getProduct clock' "vintage-hoodie" = None).
  { rewrite getProduct_other by (intros H; no_element H).
    rewrite bool_decide_eq_false_2; [done|]. intros H. no_element H. }
  unfold getProductRecommendations.
  split; [|split; [|split]].
  - intros Hne Hout. rewrite get_property_undefined; [done| |done].
    by apply lookup_singleton_ne.
  - intros Hin. rewrite get_property_inherited; [done| |done].
    apply lookup_singleton_ne. intros <-. no_element Hin.
  - rewrite (get_property_own _ _ _ (lookup_singleton_eq _ _)).
    eexists. split; reflexivity.
  - intros products.
    destruct (decide (productId = "001")) as [->|Hne].
    + rewrite (get_property_own _ _ _ (lookup_singleton_eq _ _)).
      intros [= <-].
      apply Forall_cons. split; [|by apply Forall_nil]. cbn [p_id p_handle].
      split; [done|exact Hhoodie].
    + destruct (decide (productId ∈ object_prototype_names)) as [Hin|Hout].
      * rewrite get_property_inherited; [discriminate| |done].
        by apply lookup_singleton_ne.
      * rewrite get_property_undefined; [|by apply lookup_singleton_ne|done].
        intros [= <-]. by apply Forall_nil.
Qed.

Lemma getProductRecommendations_outcome_witness :
  "002" ≠ "001"
  ∧ ("002" ∉ object_prototype_names)
  ∧ getProductRecommendations epoch_clock "002" = Own []
  ∧ "constructor" ∈ object_prototype_names
  ∧ getProductRecommendations epoch_clock "constructor"
    = Inherited "constructor".
Proof.
  assert (Hout : "002" ∉ object_prototype_names).
  { intros H. no_element H. }
  assert (Hin : "constructor" ∈ object_prototype_names).
  { apply elem_of_cons. by left. }
  split; [discriminate|]. split; [exact Hout|]. split; [|split; [exact Hin|]].
  - apply (proj1 (getProductRecommendations_outcome epoch_clock epoch_clock
                    "002")); [discriminate|exact Hout].
  - apply (proj1 (proj2 (getProductRecommendations_outcome epoch_clock
                           epoch_clock "constructor"))).
    exact Hin.
Defined.

(** ** Listings: order and content *)

Lemma getProducts_from_perm (l : list Product) (query : option string)
    (reverse : option bool) (sortKey : option string) :
  getProducts_from l query reverse sortKey ≡ₚ filter_by_query query l.
Proof.
  unfold getProducts_from. destruct sortKey as [key|]; [|done].
  destruct (truthy_string (Some key) && isKeyOfProduct key); [|done].
  apply array_sort_perm.
Qed.

(** X16.  For every list of products and every sort key that
    [getProducts] recognizes, the result is a rearrangement of the
    products that pass the query filter, in ascending order of the key
    when [reverse] is absent or false and in descending order when it is
    true: every product stands before all the products that are above
    it (below it, when descending). *)
Theorem getProducts_sorted (l : list Product) (query : option string)
    (reverse : option bool) (key : string) (k : ProductKey) :
  isKeyOfProduct key = true →
  field_of key = Some k →
  let output := getProducts_from l query reverse (Some key) in
  output ≡ₚ filter_by_query query l
  ∧ (truthy_bool reverse = false → StronglySorted (field_le k) output)
  ∧ (truthy_bool reverse = true →
     StronglySorted (flip (field_le k)) output).
Proof.
  intros Hkey Hk. cbv zeta. split; [apply getProducts_from_perm|].
  split; intros Hr.
  - by apply getProducts_from_ascending.
  - by apply getProducts_from_descending.
Qed.

Lemma getProducts_sorted_witness :
  isKeyOfProduct "handle" = true
  ∧ field_of "handle" = Some K_handle
  ∧ getProducts_from [tshirt; cup] None (Some true) (Some "handle")
    ≡ₚ filter_by_query None [tshirt; cup]
  ∧ (truthy_bool (Some true) = false →
     StronglySorted (field_le K_handle)
       (getProducts_from [tshirt; cup] None (Some true) (Some "handle")))
  ∧ (truthy_bool (Some true) = true →
     StronglySorted (flip (field_le K_handle))
       (getProducts_from [tshirt; cup] None (Some true) (Some "handle"))).
Proof.
  split; [reflexivity|]. split; [reflexivity|].
  apply (getProducts_sorted [tshirt; cup] None (Some true) "handle" K_handle);
    reflexivity.
Defined.

(** X17.  For every list of products and every sort key that
    [getCollectionProducts] recognizes, the result is a rearrangement of
    the list in ascending order of the key, whether [reverse] is true or
    not: [reverse] never makes the order descending. *)
Theorem getCollectionProducts_ascending (l : list Product)
    (collection : string) (reverse : option bool) (key : string)
    (k : ProductKey) :
  isValidProductKey key = true →
  field_of key = Some k →
  let output := getCollectionProducts_from l collection reverse (Some key) in
  output ≡ₚ l ∧ StronglySorted (field_le k) output.
Proof.
  intros Hkey Hk. cbv zeta. split.
  - apply getCollectionProducts_from_perm.
  - by apply getCollectionProducts_from_ascending.
Qed.

Lemma getCollectionProducts_ascending_witness :
  isValidProductKey "handle" = true
  ∧ field_of "handle" = Some K_handle
  ∧ getCollectionProducts_from [tshirt; cup] "spring-2020" (Some true)
      (Some "handle")
    ≡ₚ [tshirt; cup]
  ∧ StronglySorted (field_le K_handle)
      (getCollectionProducts_from [tshirt; cup] "spring-2020" (Some true)
         (Some "handle")).
Proof.
  split; [reflexivity|]. split; [reflexivity|].
  apply (getCollectionProducts_ascending [tshirt; cup] "spring-2020"
           (Some true) "handle" K_handle); reflexivity.
Defined.

(** X18.  A sort key that is absent, empty or not the name of a product
    field disables the sorting without an error: [getProducts] returns
    the products that pass the query filter in the order of the list,
    and [getCollectionProducts] returns the list, reversed when
    [reverse] is true. *)
Theorem unrecognized_sortKey_keeps_order (l : list Product)
    (query : option string) (collection : string) (reverse : option bool)
    (sortKey : option string) :
  (∀ key, sortKey = Some key → isValidProductKey key = false) →
  getProducts_from l query reverse sortKey = filter_by_query query l
  ∧ getCollectionProducts_from l collection reverse sortKey
    = reversed_if reverse l.
Proof.
  intros H. split.
  - apply getProducts_from_unsorted. intros key Hkey.
    destruct (isKeyOfProduct key) eqn:E; [|done].
    apply isKeyOfProduct_valid in E. by rewrite (H key Hkey) in E.
  - by apply getCollectionProducts_from_unsorted.
Qed.

Lemma unrecognized_sortKey_keeps_order_witness :
  (∀ key, Some "price" = Some key → isValidProductKey key = false)
  ∧ getProducts_from [tshirt; cup] None (Some true) (Some "price")
    = filter_by_query None [tshirt; cup]
  ∧ getCollectionProducts_from [tshirt; cup] "spring-2020" (Some true)
      (Some "price")
    = reversed_if (Some true) [tshirt; cup].
Proof.
  assert (H : ∀ key, Some "price" = Some key → isValidProductKey key = false).
  { intros key [= <-]. reflexivity. }
  split; [exact H|].
  apply (unrecognized_sortKey_keeps_order [tshirt; cup] None "spring-2020"
           (Some true) (Some "price") H).
Defined.

Lemma array_sort_all_ties {A : Type} (comparefn : A → A → Z) (l : list A) :
  (∀ x y, (comparefn x y >? 0) = false) → array_sort comparefn l = l.
Proof.
  intros H. induction l as [|x l IH]; [done|].
  cbn [array_sort foldr]. fold (array_sort comparefn l). rewrite IH.
  destruct l as [|y l]; [done|]. cbn [sort_insert]. by rewrite H.
Qed.

Lemma object_valued_same_value (key : string) (a b : Product) :
  key ∈ [ "priceRange"; "seo"; "featuredImage" ] →
  ∃ k, field_of key = Some k ∧ same_value k a b.
Proof.
  intros H. each_element H ltac:(eexists; split; reflexivity).
Qed.

(** X19.  Sorting by a field that holds an object ("priceRange", "seo"
    or "featuredImage") never changes the order: the comparison turns
    every such value into the same text, so all products tie.
    [getCollectionProducts] then returns the list, reversed when
    [reverse] is true, and [getProducts] the products that pass the
    query filter in the order of the list. *)
Theorem object_valued_sortKey_keeps_order (l : list Product)
    (query : option string) (collection : string) (reverse : option bool)
    (key : string) :
  key ∈ [ "priceRange"; "seo"; "featuredImage" ] →
  getCollectionProducts_from l collection reverse (Some key)
  = reversed_if reverse l
  ∧ getProducts_from l query reverse (Some key) = filter_by_query query l.
Proof.
  intros Hkey.
  assert (Hvalid : isValidProductKey key = true).
  { clear -Hkey. each_element Hkey ltac:(reflexivity). }
  split.
  - rewrite getCollectionProducts_from_sorts by done.
    apply array_sort_all_ties. intros x y.
    destruct (object_valued_same_value key x y Hkey) as (k & Hk & Hxy).
    by rewrite (collection_comparefn_tie key k Hk).
  - destruct (isKeyOfProduct key) eqn:E.
    + rewrite getProducts_from_sorts by done.
      apply array_sort_all_ties. intros x y.
      destruct (object_valued_same_value key x y Hkey) as (k & Hk & Hxy).
      by rewrite (products_comparefn_tie key k Hk).
    + apply getProducts_from_unsorted. by intros ? [= <-].
Qed.

Lemma object_valued_sortKey_keeps_order_witness :
  "seo" ∈ [ "priceRange"; "seo"; "featuredImage" ]
  ∧ getCollectionProducts_from [tshirt; cup] "spring-2020" (Some true)
      (Some "seo")
    = reversed_if (Some true) [tshirt; cup]
  ∧ getProducts_from [tshirt; cup] None (Some true) (Some "seo")
    = filter_by_query None [tshirt; cup].
Proof.
  assert (H : "seo" ∈ [ "priceRange"; "seo"; "featuredImage" ]).
  { apply elem_of_cons. right. apply elem_of_cons. by left. }
  split; [exact H|].
  apply (object_valued_sortKey_keeps_order [tshirt; cup] None "spring-2020"
           (Some true) "seo" H).
Defined.

(** X20.  With a non-empty query, [getProducts] returns exactly the
    products of the list whose title or description holds the query,
    letter case ignored, whatever the sort key and [reverse] are. *)
Theorem getProducts_matches_query (l : list Product) (q : string)
    (reverse : option bool) (sortKey : option string) (p : Product) :
  q ≠ "" →
  p ∈ getProducts_from l (Some q) reverse sortKey
  ↔ p ∈ l
    ∧ (contains (toLowerCase (p_title p)) (toLowerCase q)
       ∨ contains (toLowerCase (p_description p)) (toLowerCase q)).
Proof.
  intros Hq. rewrite getProducts_from_perm. unfold filter_by_query.
  assert (truthy_string (Some q) = true) as ->.
  { simpl. by destruct (String.eqb_spec q ""). }
  rewrite list_elem_of_In, filter_In, <- list_elem_of_In.
  by rewrite orb_true_iff, !includes_contains.
Qed.

Lemma getProducts_matches_query_witness :
  "CUP" ≠ ""
  ∧ (cup ∈ getProducts_from [tshirt; cup] (Some "CUP") None None
     ↔ cup ∈ [tshirt; cup]
       ∧ (contains (toLowerCase (p_title cup)) (toLowerCase "CUP")
          ∨ contains (toLowerCase (p_description cup)) (toLowerCase "CUP"))).
Proof.
  split; [discriminate|].
  apply (getProducts_matches_query [tshirt; cup] "CUP" None None cup).
  discriminate.
Defined.

Example getProducts_query_ignores_case :
  map p_handle (getProducts_from [tshirt; cup] (Some "CUP") None None)
  = [ "acme-cup" ]
  ∧ map p_handle (getProducts_from [tshirt; cup] (Some "") None None)
    = [ "classic-t-shirt"; "acme-cup" ].
Proof. split; reflexivity. Qed.

(** ** The revalidation webhook: every request *)

Lemma topic_not_both (topic : string) :
  topic ∈ [ "collections/create"; "collections/delete"; "collections/update" ] →
  topic ∈ [ "products/create"; "products/delete"; "products/update" ] →
  False.
Proof.
  intros Hc Hp.
  each_element Hc ltac:(no_element Hp).
Qed.

(** X21.  Whatever the request, the configured secret and the state are,
    [revalidate] answers with the HTTP status 200 and a body holding
    [status: 200]; it keeps the invalidations already asked for and adds
    at most one tag, "collections" or "products", never both; and the
    body holds [revalidated: true] and the time exactly when a tag was
    added. *)
Theorem revalidate_always_acknowledges (env_secret : option string)
    (date_now : Z) (req : NextRequest) (w : World) :
  let response := (revalidate env_secret date_now req w).1 in
  let w' := (revalidate env_secret date_now req w).2 in
  http_status response = 200
  ∧ status (body response) = 200
  ∧ ∃ tags,
      invalidated w' = invalidated w ++ tags
      ∧ (tags = [] ∨ tags = [ "collections" ] ∨ tags = [ "products" ])
      ∧ (revalidated (body response) = Some true ↔ tags ≠ [])
      ∧ (now (body response) = Some date_now ↔ tags ≠ []).
Proof.
  cbv zeta. unfold revalidate.
  set (topic := if truthy_string (x_shopify_topic req)
                then default "unknown" (x_shopify_topic req)
                else "unknown").
  destruct (negb (truthy_string (secret_param req))
            || negb (bool_decide (secret_param req = env_secret))).
  { simpl. split; [done|]. split; [done|]. exists [].
    rewrite app_nil_r. split; [done|]. split; [by left|].
    split; (split; [discriminate|done]). }
  destruct (bool_decide_reflect
              (topic ∈ [ "collections/create"; "collections/delete";
                         "collections/update" ])) as [Hc|Hc];
    destruct (bool_decide_reflect
                (topic ∈ [ "products/create"; "products/delete";
                           "products/update" ])) as [Hp|Hp]; simpl.
  - destruct (topic_not_both topic Hc Hp).
  - split; [done|]. split; [done|]. exists [ "collections" ].
    split; [done|]. split; [by right; left|]. split; (split; done).
  - split; [done|]. split; [done|]. exists [ "products" ].
    split; [done|]. split; [by right; right|]. split; (split; done).
  - split; [done|]. split; [done|]. exists [].
    rewrite app_nil_r. split; [done|]. split; [by left|].
    split; (split; [discriminate|done]).
Qed.

(** X22.  With a non-empty secret equal to the configured one, the topic
    alone decides what [revalidate] does: one of the three collection
    topics invalidates "collections" only, one of the three product
    topics invalidates "products" only, and both are answered with
    [revalidated: true] and the time; any other topic, or a missing
    topic header, is acknowledged without invalidating or logging
    anything. *)
Theorem revalidate_by_topic (secret : string) (date_now : Z)
    (topic : option string) (w : World) :
  secret ≠ "" →
  let result :=
    revalidate (Some secret) date_now
      {| x_shopify_topic := topic; secret_param := Some secret |} w in
  let revalidated_now :=
    NextResponse_json {| status := 200; revalidated := Some true;
                         now := Some date_now |} in
  (∀ t, topic = Some t →
        t ∈ [ "collections/create"; "collections/delete";
              "collections/update" ] →
        result = (revalidated_now,
                  {| invalidated := invalidated w ++ [ "collections" ];
                     console := console w |}))
  ∧ (∀ t, topic = Some t →
          t ∈ [ "products/create"; "products/delete"; "products/update" ] →
          result = (revalidated_now,
                    {| invalidated := invalidated w ++ [ "products" ];
                       console := console w |}))
  ∧ ((∀ t, topic = Some t →
           t ∉ [ "collections/create"; "collections/delete";
                 "collections/update"; "products/create";
                 "products/delete"; "products/update" ]) →
     result = (NextResponse_json acknowledged, w)).
Proof.
  intros Hne. cbv zeta. unfold revalidate. cbn [secret_param x_shopify_topic].
  assert (truthy_string (Some secret) = true) as ->.
  { simpl. by destruct (String.eqb_spec secret ""). }
  rewrite bool_decide_eq_true_2 by done. cbn [negb orb].
  split; [|split].
  - intros t -> Ht. each_element Ht ltac:(reflexivity).
  - intros t -> Ht. each_element Ht ltac:(reflexivity).
  - intros H.
    set (tp := if truthy_string topic then default "unknown" topic
               else "unknown").
    assert (Htp : tp ∉ [ "collections/create"; "collections/delete";
                         "collections/update"; "products/create";
                         "products/delete"; "products/update" ]).
    { subst tp. destruct topic as [t|]; simpl.
      - destruct (String.eqb_spec t ""); simpl; [|by apply H].
        intros Hin. no_element Hin.
      - intros Hin. no_element Hin. }
    change (tp ∉ [ "collections/create"; "collections/delete";
                   "collections/update" ]
                 ++ [ "products/create"; "products/delete";
                      "products/update" ]) in Htp.
    rewrite elem_of_app in Htp.
    rewrite !bool_decide_eq_false_2; [done| |]; intros Hin; apply Htp; auto.
Qed.

Lemma revalidate_by_topic_witness :
  "s3cret" ≠ ""
  ∧ "collections/delete"
    ∈ [ "collections/create"; "collections/delete"; "collections/update" ]
  ∧ revalidate (Some "s3cret") 1700000000000
      {| x_shopify_topic := Some "collections/delete";
         secret_param := Some "s3cret" |} initial_world
    = (NextResponse_json {| status := 200; revalidated := Some true;
                            now := Some 1700000000000 |},
       {| invalidated := invalidated initial_world ++ [ "collections" ];
          console := console initial_world |}).
Proof.
  assert (Hne : "s3cret" ≠ "") by discriminate.
  assert (Hin : "collections/delete"
                ∈ [ "collections/create"; "collections/delete";
                    "collections/update" ]).
  { apply elem_of_cons. right. apply elem_of_cons. by left. }
  split; [exact Hne|]. split; [exact Hin|].
  apply (proj1 (revalidate_by_topic "s3cret" 1700000000000
                  (Some "collections/delete") initial_world Hne)
           "collections/delete" eq_refl Hin).
Defined.
